(** * Ouro marketplace: ledger contract and mirror-store projections

    A shallow embedding of
    - [marketplace/contracts/Ouro.sol] (the ledger contract), and
    - the two writers of the mirror store: the event indexer
      ([indexEvents]) and the purchase-recording route
      ([POST /api/products/[id]/purchase]),
    together with the properties of the specification that concern them. *)

From Stdlib Require Import Ascii.
From stdpp Require Import base numbers option list strings gmap.

Local Open Scope N_scope.

(** ** The ledger contract *)

Module Ouro.

(** *** Solidity value types

    [address] (160 bits), [bytes32] and [uint256] are carried by [N]; the
    contract is compiled with Solidity ^0.8.20, whose arithmetic is
    checked: an operation whose result leaves the range of its type
    reverts with [Panic(0x11)], a division by zero with [Panic(0x12)]. *)

Abbreviation address := N (only parsing).
Abbreviation bytes32 := N (only parsing).
Abbreviation uint256 := N (only parsing).
Abbreviation uint8 := N (only parsing).

Definition UINT256_MAX : N := 2 ^ 256 - 1.
Definition UINT8_MAX : N := 255.

Inductive Error :=
| InvalidName
| InvalidTags
| InvalidPrice
| InvalidMetadataURI
| ProductNotFound
| ProductIsDeprecated
| CannotBuyOwnProduct
| NotProductOwner
| NotProductBuyer
| USDCTransferFailed
| InvalidRating
| Panic (code : N)
| RevertString (reason : string)
| OwnableUnauthorizedAccount (account : address)
| OwnableInvalidOwner (account : address)
| TokenReverted.

(** A call either returns or reverts; a revert discards every effect of
    the call, so the error carries no state. *)
Inductive Result (A : Type) :=
| Ok (a : A)
| Revert (e : Error).
Arguments Ok {A} a.
Arguments Revert {A} e.

#[global] Instance Result_ret : MRet Result := @Ok.
#[global] Instance Result_bind : MBind Result := λ A B f m,
  match m with
  | Ok a => f a
  | Revert e => Revert e
  end.

Definition require (b : bool) (e : Error) : Result unit :=
  if b then Ok tt else Revert e.

Definition checked_add (max a b : N) : Result N :=
  if a + b <=? max then Ok (a + b) else Revert (Panic 0x11).

Definition checked_sub (a b : N) : Result N :=
  if b <=? a then Ok (a - b) else Revert (Panic 0x11).

Definition checked_mul (max a b : N) : Result N :=
  if a * b <=? max then Ok (a * b) else Revert (Panic 0x11).

Definition checked_div (a b : N) : Result N :=
  if b =? 0 then Revert (Panic 0x12) else Ok (a / b).

(** *** Constants *)

Definition LISTING_FEE : uint256 := 2 * 10 ^ 6.
Definition PLATFORM_FEE_BPS : uint256 := 800.
Definition MAX_TAGS : uint256 := 8.
Definition MAX_NAME_LENGTH : uint256 := 100.

(** *** Structs and storage *)

(** [prod_id] is the struct member [id]. *)
Record Product := {
  prod_id : bytes32;
  seller : address;
  name : string;
  tags : list string;
  priceUSDC : uint256;
  metadataURI : string;
  totalSales : uint256;
  totalRevenueUSDC : uint256;
  listedAt : uint256;
  deprecated : bool
}.

Record Purchase := {
  productId : bytes32;
  buyer : address;
  amountPaid : uint256;
  purchasedAt : uint256;
  delivered : bool
}.

(** The all-zero struct a Solidity mapping yields at an unwritten key. *)
Definition zeroProduct : Product :=
  {| prod_id := 0; seller := 0; name := ""; tags := []; priceUSDC := 0;
     metadataURI := ""; totalSales := 0; totalRevenueUSDC := 0;
     listedAt := 0; deprecated := false |}.

(** Contract storage. [owner] is the slot of OpenZeppelin's [Ownable]. *)
Record State := {
  treasury : address;
  totalProducts : uint256;
  totalVolume : uint256;
  products : gmap N Product;
  productRatings : gmap N N;
  productReviewCount : gmap N N;
  productPurchases : gmap N (list Purchase);
  hasPurchased : gmap (N * N) bool;
  owner : address
}.

(** Mapping reads: an absent key reads as the zero value. *)
Definition getProduct (s : State) (pid : bytes32) : Product :=
  default zeroProduct (products s !! pid).
Definition ratingOf (s : State) (pid : bytes32) : uint256 :=
  default 0 (productRatings s !! pid).
Definition reviewCountOf (s : State) (pid : bytes32) : uint256 :=
  default 0 (productReviewCount s !! pid).
Definition getProductPurchases (s : State) (pid : bytes32) : list Purchase :=
  default [] (productPurchases s !! pid).
Definition hasUserPurchased (s : State) (user : address) (pid : bytes32) : bool :=
  default false (hasPurchased s !! (user, pid)).
Definition getProductRating (s : State) (pid : bytes32) : uint256 * uint256 :=
  (ratingOf s pid, reviewCountOf s pid).
Definition getMarketplaceStats (s : State) : uint256 * uint256 :=
  (totalProducts s, totalVolume s).

(** *** Events *)

Inductive Event :=
| ProductListed (pid : bytes32) (seller : address) (name : string)
    (tags : list string) (priceUSDC : uint256) (metadataURI : string)
| ProductPurchased (pid : bytes32) (buyer seller : address)
    (priceUSDC platformFee : uint256)
| ProductReviewed (pid : bytes32) (buyer : address) (rating : uint8)
    (newAvgRating : uint256)
| ProductDeprecated (pid : bytes32) (seller : address)
| GasSponsored (user : address) (action : string) (estimatedGasCost : uint256)
| TreasuryUpdated (oldTreasury newTreasury : address).

(** *** Transaction environment

    [gasCost] stands for [tx.gasprice * gasleft()], which is far below
    2^256 on any chain and therefore never trips the overflow check. *)
Record Env := {
  sender : address;      (* msg.sender *)
  this : address;        (* address(this) *)
  timestamp : uint256;   (* block.timestamp *)
  gasCost : uint256
}.

(** *** The USDC token

    The contract talks to USDC through [IERC20] only. A token call can
    return [true], return [false], or revert ([None]); the first argument
    after the token state is the caller of the token (always this
    contract here). The token is taken not to call back into the
    marketplace, which [nonReentrant] would reject anyway. *)
Class IERC20 (T : Type) := {
  transferFrom : T → address → address → address → uint256 → option (bool * T);
  transfer : T → address → address → uint256 → option (bool * T);
  balanceOf : T → address → uint256
}.

Definition token_call {T} (r : option (bool * T)) : Result (bool * T) :=
  match r with
  | Some x => Ok x
  | None => Revert TokenReverted
  end.

(** *** Storage writes *)

Definition set_products (f : gmap N Product → gmap N Product) (s : State) : State :=
  {| treasury := treasury s; totalProducts := totalProducts s;
     totalVolume := totalVolume s; products := f (products s);
     productRatings := productRatings s;
     productReviewCount := productReviewCount s;
     productPurchases := productPurchases s;
     hasPurchased := hasPurchased s; owner := owner s |}.

Definition set_totalProducts (n : uint256) (s : State) : State :=
  {| treasury := treasury s; totalProducts := n;
     totalVolume := totalVolume s; products := products s;
     productRatings := productRatings s;
     productReviewCount := productReviewCount s;
     productPurchases := productPurchases s;
     hasPurchased := hasPurchased s; owner := owner s |}.

Definition set_totalVolume (n : uint256) (s : State) : State :=
  {| treasury := treasury s; totalProducts := totalProducts s;
     totalVolume := n; products := products s;
     productRatings := productRatings s;
     productReviewCount := productReviewCount s;
     productPurchases := productPurchases s;
     hasPurchased := hasPurchased s; owner := owner s |}.

Definition set_productRatings (f : gmap N N → gmap N N) (s : State) : State :=
  {| treasury := treasury s; totalProducts := totalProducts s;
     totalVolume := totalVolume s; products := products s;
     productRatings := f (productRatings s);
     productReviewCount := productReviewCount s;
     productPurchases := productPurchases s;
     hasPurchased := hasPurchased s; owner := owner s |}.

Definition set_productReviewCount (f : gmap N N → gmap N N) (s : State) : State :=
  {| treasury := treasury s; totalProducts := totalProducts s;
     totalVolume := totalVolume s; products := products s;
     productRatings := productRatings s;
     productReviewCount := f (productReviewCount s);
     productPurchases := productPurchases s;
     hasPurchased := hasPurchased s; owner := owner s |}.

Definition set_productPurchases
    (f : gmap N (list Purchase) → gmap N (list Purchase)) (s : State) : State :=
  {| treasury := treasury s; totalProducts := totalProducts s;
     totalVolume := totalVolume s; products := products s;
     productRatings := productRatings s;
     productReviewCount := productReviewCount s;
     productPurchases := f (productPurchases s);
     hasPurchased := hasPurchased s; owner := owner s |}.

Definition set_hasPurchased
    (f : gmap (N * N) bool → gmap (N * N) bool) (s : State) : State :=
  {| treasury := treasury s; totalProducts := totalProducts s;
     totalVolume := totalVolume s; products := products s;
     productRatings := productRatings s;
     productReviewCount := productReviewCount s;
     productPurchases := productPurchases s;
     hasPurchased := f (hasPurchased s); owner := owner s |}.

Definition set_treasury (a : address) (s : State) : State :=
  {| treasury := a; totalProducts := totalProducts s;
     totalVolume := totalVolume s; products := products s;
     productRatings := productRatings s;
     productReviewCount := productReviewCount s;
     productPurchases := productPurchases s;
     hasPurchased := hasPurchased s; owner := owner s |}.

Definition set_owner (a : address) (s : State) : State :=
  {| treasury := treasury s; totalProducts := totalProducts s;
     totalVolume := totalVolume s; products := products s;
     productRatings := productRatings s;
     productReviewCount := productReviewCount s;
     productPurchases := productPurchases s;
     hasPurchased := hasPurchased s; owner := a |}.

(** Writes through a [Product storage] pointer. *)
Definition sold (sales' revenue' : uint256) (p : Product) : Product :=
  {| prod_id := prod_id p; seller := seller p; name := name p; tags := tags p;
     priceUSDC := priceUSDC p; metadataURI := metadataURI p;
     totalSales := sales'; totalRevenueUSDC := revenue';
     listedAt := listedAt p; deprecated := deprecated p |}.

Definition deprecate (p : Product) : Product :=
  {| prod_id := prod_id p; seller := seller p; name := name p; tags := tags p;
     priceUSDC := priceUSDC p; metadataURI := metadataURI p;
     totalSales := totalSales p; totalRevenueUSDC := totalRevenueUSDC p;
     listedAt := listedAt p; deprecated := true |}.

(** *** Entry points *)

Section Contract.

Context {T : Type} `{IERC20 T}.

(** [keccak256(abi.encodePacked(msg.sender, name, block.timestamp,
    totalProducts))], the hash being a primitive of the platform. *)
Variable keccak256 : address → string → uint256 → uint256 → bytes32.

(** What a successful call leaves behind. *)
Record Outcome := {
  st : State;
  tok : T;
  logs : list Event
}.

Definition constructor (deployer _usdc _treasury : address) : Result State :=
  (* Ownable(msg.sender) *)
  _ ← require (negb (deployer =? 0)) (OwnableInvalidOwner 0);
  _ ← require (negb ((_usdc =? 0) || (_treasury =? 0))) (RevertString "Invalid addresses");
  Ok {| treasury := _treasury; totalProducts := 0; totalVolume := 0;
        products := ∅; productRatings := ∅; productReviewCount := ∅;
        productPurchases := ∅; hasPurchased := ∅; owner := deployer |}.

Definition listProduct (tk : T) (e : Env) (name : string) (tags : list string)
    (priceUSDC : uint256) (metadataURI : string) (s : State)
    : Result (bytes32 * Outcome) :=
  let nameLen := N.of_nat (String.length name) in
  let tagsLen := N.of_nat (length tags) in
  _ ← require (negb ((nameLen =? 0) || (MAX_NAME_LENGTH <? nameLen))) InvalidName;
  _ ← require (negb ((tagsLen =? 0) || (MAX_TAGS <? tagsLen))) InvalidTags;
  _ ← require (negb ((priceUSDC <? 100000) || (10000 * 10 ^ 6 <? priceUSDC))) InvalidPrice;
  _ ← require (negb (N.of_nat (String.length metadataURI) =? 0)) InvalidMetadataURI;
  '(success, tk1) ← token_call (transferFrom tk (this e) (sender e) (treasury s) LISTING_FEE);
  _ ← require success USDCTransferFailed;
  let productId := keccak256 (sender e) name (timestamp e) (totalProducts s) in
  let product :=
    {| prod_id := productId; seller := sender e; name := name; tags := tags;
       priceUSDC := priceUSDC; metadataURI := metadataURI;
       totalSales := 0; totalRevenueUSDC := 0;
       listedAt := timestamp e; deprecated := false |} in
  totalProducts' ← checked_add UINT256_MAX (totalProducts s) 1;
  Ok (productId,
      {| st := set_totalProducts totalProducts'
                 (set_products (insert productId product) s);
         tok := tk1;
         logs := [ProductListed productId (sender e) name tags priceUSDC metadataURI;
                  GasSponsored (sender e) "listProduct" (gasCost e)] |}).

Definition purchase (tk : T) (e : Env) (productId : bytes32) (s : State)
    : Result Outcome :=
  let product := getProduct s productId in
  _ ← require (negb (listedAt product =? 0)) ProductNotFound;
  _ ← require (negb (deprecated product)) ProductIsDeprecated;
  _ ← require (negb (sender e =? seller product)) CannotBuyOwnProduct;
  scaled ← checked_mul UINT256_MAX (priceUSDC product) PLATFORM_FEE_BPS;
  platformFee ← checked_div scaled 10000;
  sellerAmount ← checked_sub (priceUSDC product) platformFee;
  '(buyerTransfer, tk1) ←
    token_call (transferFrom tk (this e) (sender e) (this e) (priceUSDC product));
  _ ← require buyerTransfer USDCTransferFailed;
  '(platformTransfer, tk2) ← token_call (transfer tk1 (this e) (treasury s) platformFee);
  '(sellerTransfer, tk3) ← token_call (transfer tk2 (this e) (seller product) sellerAmount);
  _ ← require (negb (negb platformTransfer || negb sellerTransfer)) USDCTransferFailed;
  totalSales' ← checked_add UINT256_MAX (totalSales product) 1;
  totalRevenue' ← checked_add UINT256_MAX (totalRevenueUSDC product) sellerAmount;
  totalVolume' ← checked_add UINT256_MAX (totalVolume s) (priceUSDC product);
  let receipt :=
    {| productId := productId; buyer := sender e;
       amountPaid := priceUSDC product; purchasedAt := timestamp e;
       delivered := false |} in
  Ok {| st :=
          set_hasPurchased (insert (sender e, productId) true)
            (set_productPurchases
               (insert productId (getProductPurchases s productId ++ [receipt]))
               (set_totalVolume totalVolume'
                  (set_products
                     (insert productId (sold totalSales' totalRevenue' product))
                     s)));
        tok := tk3;
        logs := [ProductPurchased productId (sender e) (seller product)
                   (priceUSDC product) platformFee;
                 GasSponsored (sender e) "purchase" (gasCost e)] |}.

(** [rating] is a [uint8]; in [rating * 100] the literal takes the type
    of the other operand, so the product is formed, and range-checked,
    in [uint8] before it is widened for the addition. *)
Definition leaveReview (tk : T) (e : Env) (productId : bytes32) (rating : uint8)
    (s : State) : Result Outcome :=
  _ ← require (negb ((rating <? 1) || (5 <? rating))) InvalidRating;
  _ ← require (hasUserPurchased s (sender e) productId) NotProductBuyer;
  let product := getProduct s productId in
  _ ← require (negb (listedAt product =? 0)) ProductNotFound;
  currentTotal ← checked_mul UINT256_MAX (ratingOf s productId) (reviewCountOf s productId);
  count' ← checked_add UINT256_MAX (reviewCountOf s productId) 1;
  scaledRating ← checked_mul UINT8_MAX rating 100;
  total' ← checked_add UINT256_MAX currentTotal scaledRating;
  avg' ← checked_div total' count';
  Ok {| st :=
          set_productRatings (insert productId avg')
            (set_productReviewCount (insert productId count') s);
        tok := tk;
        logs := [ProductReviewed productId (sender e) rating avg';
                 GasSponsored (sender e) "leaveReview" (gasCost e)] |}.

Definition deprecateProduct (tk : T) (e : Env) (productId : bytes32) (s : State)
    : Result Outcome :=
  let product := getProduct s productId in
  _ ← require (sender e =? seller product) NotProductOwner;
  Ok {| st := set_products (insert productId (deprecate product)) s;
        tok := tk;
        logs := [ProductDeprecated productId (sender e)] |}.

Definition onlyOwner (e : Env) (s : State) : Result unit :=
  require (sender e =? owner s) (OwnableUnauthorizedAccount (sender e)).

Definition updateTreasury (tk : T) (e : Env) (newTreasury : address) (s : State)
    : Result Outcome :=
  _ ← onlyOwner e s;
  _ ← require (negb (newTreasury =? 0)) (RevertString "Invalid address");
  Ok {| st := set_treasury newTreasury s; tok := tk;
        logs := [TreasuryUpdated (treasury s) newTreasury] |}.

Definition emergencyWithdraw (tk : T) (e : Env) (s : State) : Result Outcome :=
  _ ← onlyOwner e s;
  let balance := balanceOf tk (this e) in
  if 0 <? balance then
    '(_, tk1) ← token_call (transfer tk (this e) (treasury s) balance);
    Ok {| st := s; tok := tk1; logs := [] |}
  else Ok {| st := s; tok := tk; logs := [] |}.

(** Inherited from OpenZeppelin's [Ownable]. *)
Definition transferOwnership (tk : T) (e : Env) (newOwner : address) (s : State)
    : Result Outcome :=
  _ ← onlyOwner e s;
  _ ← require (negb (newOwner =? 0)) (OwnableInvalidOwner 0);
  Ok {| st := set_owner newOwner s; tok := tk; logs := [] |}.

Definition renounceOwnership (tk : T) (e : Env) (s : State) : Result Outcome :=
  _ ← onlyOwner e s;
  Ok {| st := set_owner 0 s; tok := tk; logs := [] |}.

(** *** Transactions and reachable states *)

Inductive Call :=
| ListProduct (name : string) (tags : list string) (priceUSDC : uint256)
    (metadataURI : string)
| PurchaseProduct (productId : bytes32)
| LeaveReview (productId : bytes32) (rating : uint8)
| DeprecateProduct (productId : bytes32)
| UpdateTreasury (newTreasury : address)
| EmergencyWithdraw
| TransferOwnership (newOwner : address)
| RenounceOwnership.

Definition exec (tk : T) (e : Env) (c : Call) (s : State) : Result Outcome :=
  match c with
  | ListProduct name tags priceUSDC metadataURI =>
      '(_, o) ← listProduct tk e name tags priceUSDC metadataURI s; Ok o
  | PurchaseProduct productId => purchase tk e productId s
  | LeaveReview productId rating => leaveReview tk e productId rating s
  | DeprecateProduct productId => deprecateProduct tk e productId s
  | UpdateTreasury newTreasury => updateTreasury tk e newTreasury s
  | EmergencyWithdraw => emergencyWithdraw tk e s
  | TransferOwnership newOwner => transferOwnership tk e newOwner s
  | RenounceOwnership => renounceOwnership tk e s
  end.

(** Storage and token after a call: a reverted call leaves both as they
    were before it. *)
Definition commit (tk : T) (s : State) (r : Result Outcome) : State * T :=
  match r with
  | Ok o => (st o, tok o)
  | Revert _ => (s, tk)
  end.

(** [run tr s]: [s] is the storage after deployment followed by the
    successful calls [tr] (most recent first). Between two calls the
    token may have moved arbitrarily, so each call meets its own token
    state. Blocks carry a positive Unix timestamp. *)
Inductive run : list (Env * Call) → State → Prop :=
| run_deploy deployer _usdc _treasury s :
    constructor deployer _usdc _treasury = Ok s →
    run [] s
| run_call tr s tk e c o :
    run tr s →
    0 < timestamp e →
    exec tk e c s = Ok o →
    run ((e, c) :: tr) (st o).

Definition reachable (s : State) : Prop := ∃ tr, run tr s.

(** Ratings of the reviews of [pid] that went through, most recent first. *)
Fixpoint ratingsGiven (pid : bytes32) (tr : list (Env * Call)) : list N :=
  match tr with
  | [] => []
  | (_, LeaveReview pid' r) :: tr' =>
      if decide (pid' = pid) then r :: ratingsGiven pid tr' else ratingsGiven pid tr'
  | _ :: tr' => ratingsGiven pid tr'
  end.

End Contract.

Arguments Outcome : clear implicits.

(** The largest of a list of ratings (0 for none). *)
Definition maxRating (rs : list N) : N := foldr N.max 0 rs.

(** The invariant of the ledger: every stored price is at most the
    listing maximum, and a proof-of-purchase only exists for a listed
    product. *)
Definition ledger_inv (s : State) : Prop :=
  (∀ pid, priceUSDC (getProduct s pid) ≤ 10000000000) ∧
  (∀ b pid, hasUserPurchased s b pid = true → listedAt (getProduct s pid) ≠ 0).

End Ouro.

(** ** The mirror store and its two writers *)

Module Mirror.

(** *** Decimal columns

    The [decimal(10,2)] columns are fed from JavaScript floating-point
    expressions rendered as strings. Their exact values play no part in
    the properties below, so the column type and the conversions are an
    interface. *)
Class Decimal (D : Type) := {
  (** SQL [column + value] written back to a [decimal(10,2)] column *)
  dec_add : D → D → D;
  (** whether that sum is within [decimal(10,2)]; beyond it PostgreSQL
      raises a numeric field overflow *)
  dec_add_ok : D → D → bool;
  (** [(Number(units) / 1e6).toString()], units being on-chain minor units *)
  usdcOfUnits : N → D;
  (** [String(price.toFixed(2))] with [price = Number(product.priceUSDC)] *)
  priceFixed : D → D;
  (** [String((price * 0.08).toFixed(2))] *)
  feeFixed : D → D;
  (** [String((price - price * 0.08).toFixed(2))] *)
  sellerFixed : D → D
}.

(** *** Column types

    The store is a PostgreSQL database ([drizzle/schema.ts]). A
    statement raises when a value does not fit the column it is assigned
    to or compared with, and the routes answer 500 from their [catch].
    Three column types decide what the routes do with the values of a
    request. A string of the model is a text of one-byte characters
    that the store can hold, as hashes, addresses, uuids and tags are;
    numbers are naturals. Failures of the database service itself are
    outside the model. *)

(** [integer]: four bytes, signed. The numbers of the model are
    naturals, so only the upper end matters. *)
Definition INT4_MAX : N := 2147483647.

Definition integer (n : N) : option N :=
  if n <=? INT4_MAX then Some n else None.

Fixpoint spaces (s : string) : bool :=
  match s with
  | EmptyString => true
  | String c s' => bool_decide (c = " "%char) && spaces s'
  end.

(** [varchar(n)], on assignment: characters beyond the [n]-th must all
    be spaces, and are dropped; with any other character there the
    statement raises (value too long). *)
Fixpoint varchar (n : nat) (s : string) {struct s} : option string :=
  match s, n with
  | EmptyString, _ => Some EmptyString
  | String c s', S n' => String c <$> varchar n' s'
  | String _ _, O => if spaces s then Some EmptyString else None
  end.

Definition hexDigit (c : ascii) : option N :=
  let n := Ascii.N_of_ascii c in
  if (48 <=? n) && (n <=? 57) then Some (n - 48)
  else if (65 <=? n) && (n <=? 70) then Some (n - 55)
  else if (97 <=? n) && (n <=? 102) then Some (n - 87)
  else None.

(** The bytes of a uuid, [k] of the 16 still to be read: each is two
    hexadecimal digits, and a hyphen may follow a byte of odd index
    other than the last, that is, any group of four digits. *)
Fixpoint uuidBytes (k : nat) (src : string) : option (list N * string) :=
  match k with
  | O => Some ([], src)
  | S k' =>
      match src with
      | String c1 (String c2 rest) =>
          hi ← hexDigit c1;
          lo ← hexDigit c2;
          let i := (15 - k')%nat in
          let rest' :=
            match rest with
            | String "-"%char after => if Nat.odd i && (i <? 15)%nat then after else rest
            | _ => rest
            end in
          '(bytes, tail) ← uuidBytes k' rest';
          Some ((16 * hi + lo) :: bytes, tail)
      | _ => None
      end
  end.

(** [uuid], on input: 32 hexadecimal digits in either case, hyphens
    allowed after groups of four, the whole optionally in braces.
    [None] stands for the error that PostgreSQL raises on anything else
    (invalid input syntax for type uuid). *)
Definition uuid_in (source : string) : option (list N) :=
  let '(braces, src) :=
    match source with
    | String "{"%char src => (true, src)
    | _ => (false, source)
    end in
  '(bytes, tail) ← uuidBytes 16 src;
  if bool_decide (tail = if braces then "}" else EmptyString) then Some bytes else None.

(** *** Tables

    Of each table, the columns that the two writers read or write.
    [transactions.tx_hash] carries a unique constraint, [sellers.address]
    and [tag_analytics.tag] are primary keys: these tables are finite
    maps from that column. [products] has [id] as primary key but is
    also searched by the on-chain [productId], so it stays a list of
    rows. A row holds the values as its columns store them; [p_id] is
    the text of the row's uuid. *)
Section Tables.

Context {D : Type}.

Record ProductRow := {
  p_id : string;                 (* id, a uuid *)
  p_productId : string;          (* productId, the bytes32 of the contract *)
  p_sellerAddress : string;
  p_tags : list string;
  p_priceUSDC : D;
  p_totalSales : N;
  p_totalRevenueUSDC : D;
  p_lastSaleAt : option N;
  p_updatedAt : N
}.

Record TransactionRow := {
  t_chainId : N;
  t_txHash : string;
  t_blockNumber : N;
  t_type : string;
  t_productId : option string;   (* references products.id *)
  t_fromAddress : string;
  t_toAddress : option string;
  t_amountUSDC : option D;
  t_platformFeeUSDC : option D;
  t_status : string
}.

Record SellerRow := {
  s_address : string;
  s_totalEarningsUSDC : D;
  s_totalListings : N
}.

Record TagRow := {
  a_tag : string;
  a_totalPurchases : N;
  a_lastUsedAt : N
}.

Record DB := {
  products : list ProductRow;
  transactions : gmap string TransactionRow;
  sellers : gmap string SellerRow;
  tagAnalytics : gmap string TagRow
}.

End Tables.

Arguments ProductRow : clear implicits.
Arguments TransactionRow : clear implicits.
Arguments SellerRow : clear implicits.
Arguments TagRow : clear implicits.
Arguments DB : clear implicits.

(** JavaScript's [!v] on an optional string. *)
Definition falsy (v : option string) : bool :=
  match v with
  | None => true
  | Some x => bool_decide (x = "")
  end.

(** A decoded [ProductPurchased] log. *)
Record PurchasedLog := {
  args_productId : option string;
  args_buyer : option string;
  args_seller : option string;
  args_priceUSDC : N;
  args_platformFee : N;
  transactionHash : string;
  blockNumber : N
}.

(** The logs that pass the guard [!productId || !buyer || !seller]. *)
Definition valid_args (log : PurchasedLog) : Prop :=
  falsy (args_productId log) || falsy (args_buyer log) || falsy (args_seller log) = false.

(** The JSON body of the purchase route. *)
Record Body := {
  txHash : option string;
  body_blockNumber : option N;
  buyerAddress : option string
}.

(** The route's answers: [{ ok: true }], 400, 404 and 500. *)
Inductive Response :=
| OkTrue
| BadRequest
| NotFound
| ServerError.

Section Writers.

Context {D : Type} `{Decimal D}.

(** [process.env.NEXT_PUBLIC_CHAIN_ID] *)
Variable CHAIN_ID : N.

Definition set_products (f : list (ProductRow D) → list (ProductRow D)) (db : DB D) : DB D :=
  {| products := f (products db); transactions := transactions db;
     sellers := sellers db; tagAnalytics := tagAnalytics db |}.

Definition set_transactions
    (f : gmap string (TransactionRow D) → gmap string (TransactionRow D)) (db : DB D) : DB D :=
  {| products := products db; transactions := f (transactions db);
     sellers := sellers db; tagAnalytics := tagAnalytics db |}.

Definition set_sellers
    (f : gmap string (SellerRow D) → gmap string (SellerRow D)) (db : DB D) : DB D :=
  {| products := products db; transactions := transactions db;
     sellers := f (sellers db); tagAnalytics := tagAnalytics db |}.

Definition set_tagAnalytics
    (f : gmap string TagRow → gmap string TagRow) (db : DB D) : DB D :=
  {| products := products db; transactions := transactions db;
     sellers := sellers db; tagAnalytics := f (tagAnalytics db) |}.

(** [UPDATE products SET ... WHERE cond] *)
Definition updateWhere (cond : ProductRow D → bool) (f : ProductRow D → ProductRow D)
    (rows : list (ProductRow D)) : list (ProductRow D) :=
  (λ r, if cond r then f r else r) <$> rows.

(** [INSERT ... ON CONFLICT DO NOTHING] on [transactions] *)
Definition insertOrIgnore (row : TransactionRow D)
    (txs : gmap string (TransactionRow D)) : gmap string (TransactionRow D) :=
  match txs !! t_txHash row with
  | Some _ => txs
  | None => <[t_txHash row := row]> txs
  end.

(** Plain [INSERT] on [transactions]: a duplicate [tx_hash] raises. *)
Definition insertTransaction (row : TransactionRow D)
    (txs : gmap string (TransactionRow D)) : option (gmap string (TransactionRow D)) :=
  match txs !! t_txHash row with
  | Some _ => None
  | None => Some (<[t_txHash row := row]> txs)
  end.

(** **** The event indexer, [ProductPurchased]

    The handler has no [catch]; its statements are modelled where they
    go through, on the decoded values of a log. *)

Definition indexerBump (amount : D) (now : N) (r : ProductRow D) : ProductRow D :=
  {| p_id := p_id r; p_productId := p_productId r;
     p_sellerAddress := p_sellerAddress r; p_tags := p_tags r;
     p_priceUSDC := p_priceUSDC r;
     p_totalSales := p_totalSales r + 1;
     p_totalRevenueUSDC := dec_add (p_totalRevenueUSDC r) amount;
     p_lastSaleAt := Some now; p_updatedAt := p_updatedAt r |}.

Definition creditSeller (seller : string) (amount : D)
    (rows : gmap string (SellerRow D)) : gmap string (SellerRow D) :=
  match rows !! seller with
  | None =>
      <[seller := {| s_address := seller; s_totalEarningsUSDC := amount;
                     s_totalListings := 1 |}]> rows
  | Some r =>
      <[seller := {| s_address := s_address r;
                     s_totalEarningsUSDC := dec_add (s_totalEarningsUSDC r) amount;
                     s_totalListings := s_totalListings r |}]> rows
  end.

(** The body of the [for] loop of [onLogs], run at time [now]. *)
Definition syncPurchase (now : N) (log : PurchasedLog) (db : DB D) : DB D :=
  if falsy (args_productId log) || falsy (args_buyer log) || falsy (args_seller log)
  then db
  else
    let productId := default "" (args_productId log) in
    let buyer := default "" (args_buyer log) in
    let seller := default "" (args_seller log) in
    let amount := usdcOfUnits (args_priceUSDC log) in
    (* Update product stats *)
    let db1 :=
      set_products
        (updateWhere (λ r, bool_decide (p_productId r = productId)) (indexerBump amount now))
        db in
    (* Get internal product UUID for transaction record *)
    let p := List.find (λ r, bool_decide (p_productId r = productId)) (products db1) in
    (* Insert transaction record *)
    let db2 :=
      set_transactions
        (insertOrIgnore
           {| t_chainId := CHAIN_ID; t_txHash := transactionHash log;
              t_blockNumber := blockNumber log; t_type := "purchase";
              t_productId := p_id <$> p;
              t_fromAddress := buyer; t_toAddress := Some seller;
              t_amountUSDC := Some amount;
              t_platformFeeUSDC := Some (usdcOfUnits (args_platformFee log));
              t_status := "confirmed" |})
        db1 in
    (* Update seller earnings *)
    set_sellers (creditSeller seller amount) db2.

(** [onLogs]: the logs of a batch, each with the time it is handled at. *)
Definition onLogs (logs : list (N * PurchasedLog)) (db : DB D) : DB D :=
  foldl (λ acc '(now, log), syncPurchase now log acc) db logs.

(** **** The purchase route, [POST /api/products/[id]/purchase] *)

(** [or(eq(products.id, id), eq(products.productId, id))]. The first
    operand compares uuids, [u] being the path id read as one; the
    second compares strings. *)
Definition resolves (u : list N) (id : string) (r : ProductRow D) : bool :=
  bool_decide (uuid_in (p_id r) = Some u) || bool_decide (p_productId r = id).

Definition routeBump (sellerAmount : D) (now : N) (r : ProductRow D) : ProductRow D :=
  {| p_id := p_id r; p_productId := p_productId r;
     p_sellerAddress := p_sellerAddress r; p_tags := p_tags r;
     p_priceUSDC := p_priceUSDC r;
     p_totalSales := p_totalSales r + 1;
     p_totalRevenueUSDC := dec_add (p_totalRevenueUSDC r) sellerAmount;
     p_lastSaleAt := Some now; p_updatedAt := now |}.

(** A row without room for one more sale: [total_sales] is at the end of
    [integer], or the revenue would leave [decimal(10,2)]. *)
Definition bumpRaises (sellerAmount : D) (r : ProductRow D) : bool :=
  (INT4_MAX <=? p_totalSales r) || negb (dec_add_ok (p_totalRevenueUSDC r) sellerAmount).

(** The route's [UPDATE products ... WHERE id = pid]: it raises, and
    updates nothing, when a row it would bump has no room. *)
Definition bumpProduct (pid : string) (sellerAmount : D) (now : N)
    (rows : list (ProductRow D)) : option (list (ProductRow D)) :=
  if existsb (λ r, bool_decide (p_id r = pid) && bumpRaises sellerAmount r) rows then None
  else Some (updateWhere (λ r, bool_decide (p_id r = pid)) (routeBump sellerAmount now) rows).

Definition bumpTag (now : N) (rows : gmap string TagRow) (tag : string)
    : gmap string TagRow :=
  match rows !! tag with
  | None => <[tag := {| a_tag := tag; a_totalPurchases := 1; a_lastUsedAt := now |}]> rows
  | Some r =>
      <[tag := {| a_tag := a_tag r; a_totalPurchases := a_totalPurchases r + 1;
                  a_lastUsedAt := now |}]> rows
  end.

(** The upsert of one tag: the tag is assigned to the [varchar(50)] key
    of [tag_analytics], and a counter at the end of [integer] cannot be
    raised. *)
Definition upsertTag (now : N) (rows : gmap string TagRow) (tag : string)
    : option (gmap string TagRow) :=
  key ← varchar 50 tag;
  match rows !! key with
  | Some r => if INT4_MAX <=? a_totalPurchases r then None else Some (bumpTag now rows key)
  | None => Some (bumpTag now rows key)
  end.

(** The loop over the product's tags, one statement per tag: an upsert
    that raises ends the request with 500, and the upserts before it
    stay. *)
Fixpoint bumpTags (now : N) (tags : list string) (rows : gmap string TagRow)
    : Response * gmap string TagRow :=
  match tags with
  | [] => (OkTrue, rows)
  | tag :: tags' =>
      match upsertTag now rows tag with
      | None => (ServerError, rows)
      | Some rows' => bumpTags now tags' rows'
      end
  end.

(** The [INSERT] of the route: the values of the request go through the
    columns [chain_id], [tx_hash], [block_number] and [from_address],
    the others come from the product row. *)
Definition recordPurchase (body : Body) (product : ProductRow D)
    (txs : gmap string (TransactionRow D)) : option (gmap string (TransactionRow D)) :=
  let price := p_priceUSDC product in
  chainId ← integer CHAIN_ID;
  tx_hash ← varchar 66 (default "" (txHash body));
  block_number ← integer (default 0 (body_blockNumber body));
  from_address ← varchar 42 (default "" (buyerAddress body));
  insertTransaction
    {| t_chainId := chainId; t_txHash := tx_hash;
       t_blockNumber := block_number;
       t_type := "purchase";
       t_productId := Some (p_id product);
       t_fromAddress := from_address;
       t_toAddress := Some (p_sellerAddress product);
       t_amountUSDC := Some (priceFixed price);
       t_platformFeeUSDC := Some (feeFixed price);
       t_status := "confirmed" |}
    txs.

(** The three writes are separate statements outside any transaction:
    when one raises, the writes before it stay in the store. *)
Definition POST (now : N) (id : string) (body : Body) (db : DB D) : Response * DB D :=
  if falsy (txHash body) || bool_decide (body_blockNumber body = None)
     || falsy (buyerAddress body)
  then (BadRequest, db)
  else
    let txHash := default "" (txHash body) in
    (* Idempotency guard *)
    match transactions db !! txHash with
    | Some _ => (OkTrue, db)
    | None =>
        (* Resolve product by UUID or chainProductId *)
        match uuid_in id with
        | None => (ServerError, db)
        | Some u =>
            match List.find (resolves u id) (products db) with
            | None => (NotFound, db)
            | Some product =>
                let price := p_priceUSDC product in
                (* 1. Insert transaction *)
                match recordPurchase body product (transactions db) with
                | None => (ServerError, db)
                | Some txs =>
                    let db1 := set_transactions (λ _, txs) db in
                    (* 2. Bump product stats *)
                    match bumpProduct (p_id product) (sellerFixed price) now (products db1) with
                    | None => (ServerError, db1)
                    | Some rows =>
                        let db2 := set_products (λ _, rows) db1 in
                        (* 3. Bump tagAnalytics.totalPurchases for each product tag *)
                        let '(response, tagRows) :=
                          bumpTags now (p_tags product) (tagAnalytics db2) in
                        (response, set_tagAnalytics (λ _, tagRows) db2)
                    end
                end
            end
        end
    end.

End Writers.

(** *** Requests that the store takes as they are *)

(** The purchase counter of a tag, 0 for a tag without a row. *)
Definition tagCount (rows : gmap string TagRow) (tag : string) : N :=
  default 0 (a_totalPurchases <$> rows !! tag).

(** The chain id, transaction hash, buyer address and block number are
    within the columns of [transactions]. *)
Definition fitsColumns (CHAIN_ID : N) (h b : string) (bn : N) : Prop :=
  CHAIN_ID ≤ INT4_MAX ∧ (String.length h ≤ 66)%nat ∧
  (String.length b ≤ 42)%nat ∧ bn ≤ INT4_MAX.

(** Every row that carries the product's id has room for one more sale
    of the product. *)
Definition roomForSale {D : Type} `{Decimal D} (product : ProductRow D)
    (rows : list (ProductRow D)) : Prop :=
  Forall (λ r, p_id r = p_id product →
               p_totalSales r < INT4_MAX ∧
               dec_add_ok (p_totalRevenueUSDC r) (sellerFixed (p_priceUSDC product)) = true)
         rows.

(** Every tag of the list is within the key of [tag_analytics], and its
    counter has room for as many purchases as the list has tags. *)
Definition roomForTags (tags : list string) (rows : gmap string TagRow) : Prop :=
  Forall (λ t, (String.length t ≤ 50)%nat ∧
               tagCount rows t + N.of_nat (length tags) ≤ INT4_MAX) tags.


End Mirror.

(** ** A reference ERC-20 and a sample ledger history

    The marketplace is verified against the [IERC20] interface; the
    token below instantiates it for the worked examples. With [lenient]
    set it reports a transfer it cannot make by returning [false],
    otherwise it reverts, as USDC does. *)

Module Sample.
Import Ouro.

Record Erc20 := {
  balances : gmap N N;
  allowances : gmap (N * N) N;
  lenient : bool
}.

Definition balance (tk : Erc20) (a : N) : N := default 0 (balances tk !! a).
Definition allowance (tk : Erc20) (holder spender : N) : N :=
  default 0 (allowances tk !! (holder, spender)).

Definition refuse (tk : Erc20) : option (bool * Erc20) :=
  if lenient tk then Some (false, tk) else None.

Definition move (src dst amount : N) (tk : Erc20) : Erc20 :=
  let debited := <[src := balance tk src - amount]> (balances tk) in
  {| balances := <[dst := default 0 (debited !! dst) + amount]> debited;
     allowances := allowances tk;
     lenient := lenient tk |}.

Definition spend (holder spender amount : N) (tk : Erc20) : Erc20 :=
  {| balances := balances tk;
     allowances := <[(holder, spender) := allowance tk holder spender - amount]> (allowances tk);
     lenient := lenient tk |}.

Definition erc20_transfer (tk : Erc20) (caller dst amount : N) : option (bool * Erc20) :=
  if amount <=? balance tk caller then Some (true, move caller dst amount tk)
  else refuse tk.

Definition erc20_transferFrom (tk : Erc20) (caller src dst amount : N)
    : option (bool * Erc20) :=
  if (amount <=? balance tk src) && (amount <=? allowance tk src caller)
  then Some (true, move src dst amount (spend src caller amount tk))
  else refuse tk.

#[global] Instance Erc20_IERC20 : IERC20 Erc20 :=
  {| transferFrom := erc20_transferFrom;
     transfer := erc20_transfer;
     balanceOf := balance |}.

(** Accounts. *)
Definition deployer : N := 1.
Definition usdc : N := 2.
Definition treasuryAcct : N := 3.
Definition alice : N := 10.   (* a seller *)
Definition bob : N := 20.     (* a buyer *)
Definition carol : N := 30.   (* a bystander without funds *)
Definition market : N := 100. (* the marketplace contract *)

(** A stand-in for the hash: distinct sequence numbers give distinct ids. *)
Definition hash (who : N) (name : string) (time seq : N) : N := 1000 + seq.

Definition at_ (who time : N) : Env :=
  {| sender := who; this := market; timestamp := time; gasCost := 21000 |}.

Definition funded (isLenient : bool) : Erc20 :=
  {| balances := <[alice := 5000000]> (<[bob := 5000000]> ∅);
     allowances := <[(alice, market) := 5000000]> (<[(bob, market) := 5000000]> ∅);
     lenient := isLenient |}.

Definition unwrap {A} (d : A) (r : Result A) : A :=
  match r with
  | Ok a => a
  | Revert _ => d
  end.

Definition genesis : State :=
  {| treasury := treasuryAcct; totalProducts := 0; totalVolume := 0;
     products := ∅; productRatings := ∅; productReviewCount := ∅;
     productPurchases := ∅; hasPurchased := ∅; owner := deployer |}.

Definition blank : Outcome Erc20 := {| st := genesis; tok := funded false; logs := [] |}.

Definition step (e : Env) (c : Call) (o : Outcome Erc20) : Outcome Erc20 :=
  unwrap blank (exec hash (tok o) e c (st o)).

(** Alice lists a product at 1,000,000 minor units, Bob buys it, Alice
    deprecates it, Bob reviews it twice. *)
Definition pid1 : N := 1000.
Definition listCall : Call := ListProduct "translator" ["nlp"; "text"] 1000000 "ipfs://translator".

Definition listed : Outcome Erc20 := step (at_ alice 1700000000) listCall blank.
Definition bought : Outcome Erc20 := step (at_ bob 1700000100) (PurchaseProduct pid1) listed.
Definition retired : Outcome Erc20 := step (at_ alice 1700000200) (DeprecateProduct pid1) bought.
Definition reviewed1 : Outcome Erc20 := step (at_ bob 1700000300) (LeaveReview pid1 2) retired.
Definition reviewed2 : Outcome Erc20 := step (at_ bob 1700000400) (LeaveReview pid1 1) reviewed1.

End Sample.

(** ** A sample mirror store

    Amounts are held in hundredths of a USDC, with decimal rounding in
    place of the floating-point expressions. *)

Module MirrorSample.
Import Mirror.

#[global] Instance Cents : Decimal N :=
  {| dec_add := N.add;
     dec_add_ok := λ a b, a + b <? 10 ^ 10;
     usdcOfUnits := λ units, (units + 5000) / 10000;
     priceFixed := λ price, price;
     feeFixed := λ price, (price * 8 + 50) / 100;
     sellerFixed := λ price, (price * 92 + 50) / 100 |}.

Definition chain : N := 84532.

(** The uuid of the sample product's row. *)
Definition translatorId : string := "6f1c0d9e-3b7a-4c52-9e1f-2a8d5b6c7e90".

Definition translatorUuid : list N := Eval cbv in default [] (uuid_in translatorId).

Definition translator : ProductRow N :=
  {| p_id := translatorId; p_productId := "0xabc"; p_sellerAddress := "0xa11ce";
     p_tags := ["nlp"; "text"]; p_priceUSDC := 100;
     p_totalSales := 0; p_totalRevenueUSDC := 0;
     p_lastSaleAt := None; p_updatedAt := 0 |}.

Definition store0 : DB N :=
  {| products := [translator]; transactions := ∅; sellers := ∅; tagAnalytics := ∅ |}.

(** Bob's purchase of the translator, as the indexer sees it ... *)
Definition bobLog : PurchasedLog :=
  {| args_productId := Some "0xabc"; args_buyer := Some "0xb0b";
     args_seller := Some "0xa11ce"; args_priceUSDC := 1000000;
     args_platformFee := 80000; transactionHash := "0xfeed"; blockNumber := 42 |}.

(** ... and as Bob's client reports it to the route. *)
Definition bobReceipt : Body :=
  {| txHash := Some "0xfeed"; body_blockNumber := Some 42; buyerAddress := Some "0xb0b" |}.

(** Bob's receipt with another block number, and without the hash. *)
Definition receiptAt (bn : N) : Body :=
  {| txHash := Some "0xfeed"; body_blockNumber := Some bn; buyerAddress := Some "0xb0b" |}.

Definition blankReceipt : Body :=
  {| txHash := Some ""; body_blockNumber := Some 42; buyerAddress := Some "0xb0b" |}.


(** A uuid that no row carries. *)
Definition strangerId : string := "00000000-0000-4000-8000-000000000000".

(** The same store with a product whose second tag is longer than the
    50 characters of [tag_analytics.tag]. *)
Definition verbose : ProductRow N :=
  {| p_id := translatorId; p_productId := "0xabc"; p_sellerAddress := "0xa11ce";
     p_tags := ["nlp"; "machine-translation-between-all-pairs-of-one-hundred-languages"];
     p_priceUSDC := 100;
     p_totalSales := 0; p_totalRevenueUSDC := 0;
     p_lastSaleAt := None; p_updatedAt := 0 |}.

Definition store1 : DB N :=
  {| products := [verbose]; transactions := ∅; sellers := ∅; tagAnalytics := ∅ |}.

Definition sales (db : DB N) : list N := p_totalSales <$> products db.
Definition revenue (db : DB N) : list N := p_totalRevenueUSDC <$> products db.
Definition purchasesOfTag (db : DB N) (tag : string) : option N :=
  a_totalPurchases <$> tagAnalytics db !! tag.

End MirrorSample.

(** ** Ledger histories and token laws

    Vocabulary for the properties of the contract beyond single calls. *)

Module Books.
Import Ouro.


(** Buyers of the successful purchases of [pid], most recent first. *)
Fixpoint buyersOf (pid : N) (tr : list (Env * Call)) : list N :=
  match tr with
  | [] => []
  | (e, PurchaseProduct pid') :: tr' =>
      if decide (pid' = pid) then sender e :: buyersOf pid tr' else buyersOf pid tr'
  | _ :: tr' => buyersOf pid tr'
  end.

(** Number of successful listings. *)
Fixpoint listings (tr : list (Env * Call)) : nat :=
  match tr with
  | [] => 0
  | (_, ListProduct _ _ _ _) :: tr' => S (listings tr')
  | _ :: tr' => listings tr'
  end.

(** The inputs [listProduct] accepts. *)
Definition validListing (nm : string) (tgs : list string) (price : N) (uri : string) : Prop :=
  (1 ≤ String.length nm ≤ 100)%nat ∧ (1 ≤ length tgs ≤ 8)%nat ∧
  100000 ≤ price ≤ 10000000000 ∧ uri ≠ "".

(** The record that [purchase] pushes. *)
Definition receiptOf (e : Env) (pid : N) (s : State) : Purchase :=
  {| productId := pid; buyer := sender e;
     amountPaid := priceUSDC (getProduct s pid); purchasedAt := timestamp e;
     delivered := false |}.

(** The smallest of a list of ratings (5, the largest rating, for none). *)
Definition minRating (rs : list N) : N := foldr N.min 5 rs.

(** What the seller receives of a price. *)
Definition netPrice (price : N) : N := price - price * PLATFORM_FEE_BPS / 10000.



(** The fields of a product that no call is meant to change. *)
Definition listing (p : Product) : N * N * string * list string * N * string * N :=
  (prod_id p, seller p, name p, tags p, priceUSDC p, metadataURI p, listedAt p).

(** The treasury after the successful calls [tr] (most recent first):
    the address given to the latest [updateTreasury] among them, [t0]
    when there is none. *)
Fixpoint treasuryAfter (t0 : N) (tr : list (Env * Call)) : N :=
  match tr with
  | [] => t0
  | (_, UpdateTreasury a) :: _ => a
  | _ :: tr' => treasuryAfter t0 tr'
  end.

(** [steps keccak256 s tr s']: the successful calls [tr] (most recent
    first) lead from the storage [s] to the storage [s'], each call
    meeting its own token state. *)
Inductive steps {T : Type} `{IERC20 T} (keccak256 : N → string → N → N → N) (s : State)
    : list (Env * Call) → State → Prop :=
| steps_nil : steps keccak256 s [] s
| steps_call tr s' tk e c o :
    steps keccak256 s tr s' →
    exec keccak256 tk e c s' = Ok o →
    steps keccak256 s ((e, c) :: tr) (st o).

(** A token whose successful transfers move balances as ERC-20 says:
    the amount leaves the source, which had it, and reaches the
    destination; no other balance moves. *)
Class ERC20Laws (T : Type) `{IERC20 T} := {
  transfer_moves : ∀ (tk tk' : T) (caller dst amount : N),
    transfer tk caller dst amount = Some (true, tk') →
    amount ≤ balanceOf tk caller ∧
    ∀ x, balanceOf tk' x =
           (if decide (x = caller) then balanceOf tk x - amount else balanceOf tk x)
           + (if decide (x = dst) then amount else 0);
  transferFrom_moves : ∀ (tk tk' : T) (caller src dst amount : N),
    transferFrom tk caller src dst amount = Some (true, tk') →
    amount ≤ balanceOf tk src ∧
    ∀ x, balanceOf tk' x =
           (if decide (x = src) then balanceOf tk x - amount else balanceOf tk x)
           + (if decide (x = dst) then amount else 0)
}.

End Books.

(** ** Readers of the mirror store and the delivery route *)

Module Delivery.
Import Mirror.

(** The guard of the purchase route:
    [!txHash || blockNumber == null || !buyerAddress]. *)
Definition missing (body : Body) : bool :=
  falsy (txHash body) || bool_decide (body_blockNumber body = None)
    || falsy (buyerAddress body).

(** How often a tag occurs in a tag list. *)
Definition occurrences (tag : string) (tags : list string) : nat :=
  length (filter (λ t, t = tag) tags).

(** The columns of a product row that identify and describe it. *)
Definition fixedColumns {D : Type} (r : ProductRow D)
    : string * string * string * list string * D :=
  (p_id r, p_productId r, p_sellerAddress r, p_tags r, p_priceUSDC r).

(** A row after a write: same identifying columns, at most one more sale. *)
Definition sameProduct {D : Type} (r r' : ProductRow D) : Prop :=
  fixedColumns r' = fixedColumns r ∧
  p_totalSales r ≤ p_totalSales r' ≤ p_totalSales r + 1.

(** *** [POST /api/products/[id]/deliver] *)

Record Payload := {
  d_productId : string;
  d_name : string;
  d_deliveryMethod : string;
  d_downloadUrl : string;
  d_apiKey : option string;
  d_instructions : string;
  d_expiresAt : string
}.

(** The route's answers: the delivery payload, 400, 404, 402 and 500. *)
Inductive Reply :=
| Delivered (payload : Payload)
| BuyerRequired
| ProductUnknown
| PaymentRequired (buyer productId : string)
| InternalServerError.

Section Route.

Context {D : Type}.

(** The columns [name] and [delivery_method] of a product row. *)
Variable nameOf : ProductRow D → string.
Variable deliveryMethodOf : ProductRow D → option string.

(** [new Date(ms).toISOString()] *)
Variable toISOString : N → string.

(** [readContract] of [hasUserPurchased(buyerAddress, product.productId)];
    [None] when the call throws. The product lookup is the one of the
    purchase route and raises, for a 500, on a path id that is not a
    uuid. *)
Variable hasPurchasedOnChain : string → string → option bool.

Definition deliver (nowMs : N) (id : string) (buyerAddress : option string) (db : DB D)
    : Reply :=
  if falsy buyerAddress then BuyerRequired
  else
    let buyer := default "" buyerAddress in
    (* 1. Fetch product from DB *)
    match uuid_in id with
    | None => InternalServerError
    | Some u =>
        match List.find (resolves u id) (products db) with
        | None => ProductUnknown
        | Some product =>
            (* 2. Verify purchase on-chain *)
            match hasPurchasedOnChain buyer (p_productId product) with
            | None => InternalServerError
            | Some false => PaymentRequired buyer (p_productId product)
            | Some true =>
                (* 3. Deliver capability *)
                Delivered
                  {| d_productId := p_productId product;
                     d_name := nameOf product;
                     d_deliveryMethod :=
                       if falsy (deliveryMethodOf product) then "file_download"
                       else default "" (deliveryMethodOf product);
                     d_downloadUrl :=
                       "https://storage.agentmarket.com/deliverables/"
                       ++ p_productId product ++ ".zip?token=mock_signed_token";
                     d_apiKey :=
                       if bool_decide (deliveryMethodOf product = Some "api_key")
                       then Some "sk_live_agent_mock_key_123" else None;
                     d_instructions :=
                       "Import this tool into your agentic framework (e.g., LangChain or MCP).";
                     d_expiresAt := toISOString (nowMs + 3600 * 1000) |}
            end
        end
    end.

End Route.

(** The contract read behind the route: the hex strings are decoded to
    an address and a bytes32 (a malformed one makes the call throw) and
    [hasUserPurchased] is evaluated on the ledger. *)
Definition readLedger (decodeAddress decodeBytes32 : string → option N) (s : Ouro.State)
    (buyer productId : string) : option bool :=
  a ← decodeAddress buyer;
  pid ← decodeBytes32 productId;
  Some (Ouro.hasUserPurchased s a pid).

End Delivery.

(** ** A sample delivery setting

    The mirror's product is the ledger's sample product: the hex strings
    of the mirror row decode to the sample accounts and product id. *)

Module DeliverySample.
Import Mirror Delivery MirrorSample.

Fixpoint hexValue (acc : N) (digits : string) : option N :=
  match digits with
  | EmptyString => Some acc
  | String c rest =>
      let n := Ascii.N_of_ascii c in
      if (48 <=? n) && (n <=? 57) then hexValue (16 * acc + (n - 48)) rest
      else if (97 <=? n) && (n <=? 102) then hexValue (16 * acc + (n - 87)) rest
      else None
  end.

(** A hex string of exactly [size] bytes in lower case, as the client
    library takes it for an [address] (20 bytes) or a [bytes32]. *)
Definition decodeHex (size : nat) (x : string) : option N :=
  match x with
  | String "0"%char (String "x"%char digits) =>
      if bool_decide (String.length digits = (2 * size)%nat) then hexValue 0 digits else None
  | _ => None
  end.

Definition aliceAddress : string := "0x000000000000000000000000000000000000000a".
Definition bobAddress : string := "0x0000000000000000000000000000000000000014".
Definition carolAddress : string := "0x000000000000000000000000000000000000001e".

(** The on-chain id of the sample product, [Sample.pid1]. *)
Definition translatorProductId : string :=
  "0x00000000000000000000000000000000000000000000000000000000000003e8".

Definition listedTranslator : ProductRow N :=
  {| p_id := translatorId; p_productId := translatorProductId;
     p_sellerAddress := aliceAddress;
     p_tags := ["nlp"; "text"]; p_priceUSDC := 100;
     p_totalSales := 1; p_totalRevenueUSDC := 92;
     p_lastSaleAt := Some 1700000100; p_updatedAt := 1700000100 |}.

Definition shelf : DB N :=
  {| products := [listedTranslator]; transactions := ∅; sellers := ∅; tagAnalytics := ∅ |}.

(** A purchase of a product the mirror has not seen, and a log that
    lacks the buyer. *)
Definition strayLog : PurchasedLog :=
  {| args_productId := Some "0xffff"; args_buyer := Some "0xb0b";
     args_seller := Some "0xa11ce"; args_priceUSDC := 1000000;
     args_platformFee := 80000; transactionHash := "0xbeef"; blockNumber := 43 |}.

Definition anonymousLog : PurchasedLog :=
  {| args_productId := Some "0xabc"; args_buyer := None;
     args_seller := Some "0xa11ce"; args_priceUSDC := 1000000;
     args_platformFee := 80000; transactionHash := "0xbeef"; blockNumber := 43 |}.

Definition sampleName (r : ProductRow N) : string := "translator".
Definition sampleMethod (r : ProductRow N) : option string := None.
Definition sampleClock (ms : N) : string := "2023-11-14T23:13:20.000Z".

Definition deliverTo (id : string) (s : Ouro.State) (buyerAddress : option string) : Reply :=
  deliver sampleName sampleMethod sampleClock (readLedger (decodeHex 20) (decodeHex 32) s)
    1700000000000 id buyerAddress shelf.

Definition deliverFrom : Ouro.State → option string → Reply := deliverTo translatorId.

End DeliverySample.

(** ** Properties of the ledger contract *)

Module OuroProps.
Import Ouro.

(** *** Inversion of the revert monad *)

Lemma bind_Ok {A B} (m : Result A) (k : A → Result B) (b : B) :
  m ≫= k = Ok b → ∃ a, m = Ok a ∧ k a = Ok b.
Proof. destruct m as [a|e]; simpl; [eauto | discriminate]. Qed.

Lemma require_Ok (c : bool) (e : Error) (u : unit) : require c e = Ok u → c = true.
Proof. destruct c; simpl; [done | discriminate]. Qed.

Lemma checked_add_Ok max a b c :
  checked_add max a b = Ok c → c = a + b ∧ a + b ≤ max.
Proof.
  unfold checked_add. destruct (a + b <=? max) eqn:E; [|discriminate].
  intros [= <-]. split; [done | by apply N.leb_le].
Qed.

Lemma checked_mul_Ok max a b c :
  checked_mul max a b = Ok c → c = a * b ∧ a * b ≤ max.
Proof.
  unfold checked_mul. destruct (a * b <=? max) eqn:E; [|discriminate].
  intros [= <-]. split; [done | by apply N.leb_le].
Qed.

Lemma checked_sub_Ok a b c : checked_sub a b = Ok c → c = a - b ∧ b ≤ a.
Proof.
  unfold checked_sub. destruct (b <=? a) eqn:E; [|discriminate].
  intros [= <-]. split; [done | by apply N.leb_le].
Qed.

Lemma checked_div_Ok a b c : checked_div a b = Ok c → c = a / b ∧ b ≠ 0.
Proof.
  unfold checked_div. destruct (b =? 0) eqn:E; [discriminate|].
  intros [= <-]. split; [done | by apply N.eqb_neq].
Qed.

Lemma token_call_Ok {T} (r : option (bool * T)) x : token_call r = Ok x → r = Some x.
Proof. destruct r; simpl; [congruence | discriminate]. Qed.

(** Peel the leading bind of a successful computation. *)
Ltac peel H :=
  let a := fresh "v" in
  let Hm := fresh "Hm" in
  apply bind_Ok in H as (a & Hm & H);
  first
    [ apply require_Ok in Hm
    | apply checked_add_Ok in Hm as [-> Hm]
    | apply checked_mul_Ok in Hm as [-> Hm]
    | apply checked_sub_Ok in Hm as [-> Hm]
    | apply checked_div_Ok in Hm as [-> Hm]
    | apply token_call_Ok in Hm; destruct a
    | idtac ].

Section Ledger.

Context {T : Type} `{IERC20 T}.
Variable keccak256 : N → string → N → N → N.

(** *** Purchase *)

(** What a successful purchase did, step by step. *)
Lemma purchase_Ok (tk : T) (e : Env) (pid : N) (s : State) (o : Outcome T) :
  purchase tk e pid s = Ok o →
  let product := getProduct s pid in
  let platformFee := priceUSDC product * PLATFORM_FEE_BPS / 10000 in
  let sellerAmount := priceUSDC product - platformFee in
  listedAt product ≠ 0 ∧ deprecated product = false ∧ sender e ≠ seller product ∧
  priceUSDC product * PLATFORM_FEE_BPS ≤ UINT256_MAX ∧
  platformFee ≤ priceUSDC product ∧
  (∃ tk1 tk2,
     transferFrom tk (this e) (sender e) (this e) (priceUSDC product) = Some (true, tk1) ∧
     transfer tk1 (this e) (treasury s) platformFee = Some (true, tk2) ∧
     transfer tk2 (this e) (seller product) sellerAmount = Some (true, tok o)) ∧
  st o =
    set_hasPurchased (insert (sender e, pid) true)
      (set_productPurchases
         (insert pid (getProductPurchases s pid ++
            [{| productId := pid; buyer := sender e;
                amountPaid := priceUSDC product; purchasedAt := timestamp e;
                delivered := false |}]))
         (set_totalVolume (totalVolume s + priceUSDC product)
            (set_products
               (insert pid (sold (totalSales product + 1)
                              (totalRevenueUSDC product + sellerAmount) product))
               s))) ∧
  logs o = [ProductPurchased pid (sender e) (seller product) (priceUSDC product) platformFee;
            GasSponsored (sender e) "purchase" (gasCost e)].
Proof.
  intros Hp. unfold purchase in Hp.
  peel Hp. peel Hp. peel Hp. peel Hp. peel Hp. peel Hp. peel Hp. peel Hp.
  peel Hp. peel Hp. peel Hp. peel Hp. peel Hp. peel Hp.
  injection Hp as <-. simpl.
  apply negb_true_iff in Hm, Hm0, Hm1, Hm9.
  apply orb_false_iff in Hm9 as [Hpt Hst].
  apply negb_false_iff in Hpt, Hst. subst.
  apply N.eqb_neq in Hm, Hm1.
  repeat split; try done.
  exists t, t0. done.
Qed.

(** C1. A successful purchase of a product priced [p] takes
    [floor (p * 800 / 10000)] as platform fee and pays [p] minus that fee
    to the seller, the two adding up to [p]; the product's sale counter
    grows by one and its cumulative revenue by the seller amount. At
    [p = 1,000,000] the fee is 80,000 and the seller amount 920,000. *)
Theorem purchase_fee_split (tk : T) (e : Env) (pid : N) (s : State) (o : Outcome T) :
  purchase tk e pid s = Ok o →
  let product := getProduct s pid in
  let p := priceUSDC product in
  let platformFee := p * 800 / 10000 in
  let sellerAmount := p - platformFee in
  platformFee + sellerAmount = p ∧
  (∃ tk1 tk2,
     transferFrom tk (this e) (sender e) (this e) p = Some (true, tk1) ∧
     transfer tk1 (this e) (treasury s) platformFee = Some (true, tk2) ∧
     transfer tk2 (this e) (seller product) sellerAmount = Some (true, tok o)) ∧
  ProductPurchased pid (sender e) (seller product) p platformFee ∈ logs o ∧
  totalSales (getProduct (st o) pid) = totalSales product + 1 ∧
  totalRevenueUSDC (getProduct (st o) pid) = totalRevenueUSDC product + sellerAmount ∧
  (p = 1000000 → platformFee = 80000 ∧ sellerAmount = 920000).
Proof.
  intros Hp. apply purchase_Ok in Hp as (_ & _ & _ & _ & Hle & Htok & Hst & Hlogs).
  change PLATFORM_FEE_BPS with 800 in *. cbv zeta.
  split; [lia|]. split; [exact Htok|].
  split; [rewrite Hlogs; apply list_elem_of_here|].
  assert (getProduct (st o) pid =
          sold (totalSales (getProduct s pid) + 1)
            (totalRevenueUSDC (getProduct s pid) +
             (priceUSDC (getProduct s pid) - priceUSDC (getProduct s pid) * 800 / 10000))
            (getProduct s pid)) as ->.
  { rewrite Hst. unfold getProduct at 1. simpl. by rewrite lookup_insert_eq. }
  simpl. split; [done|]. split; [done|].
  intros ->. by vm_compute.
Qed.

(** The failing branches of [purchase], in the order the code tests them. *)
Lemma purchase_not_found (tk : T) (e : Env) (pid : N) (s : State) :
  listedAt (getProduct s pid) = 0 → purchase tk e pid s = Revert ProductNotFound.
Proof. intros Hl. unfold purchase. by rewrite Hl. Qed.

Lemma purchase_deprecated (tk : T) (e : Env) (pid : N) (s : State) :
  listedAt (getProduct s pid) ≠ 0 → deprecated (getProduct s pid) = true →
  purchase tk e pid s = Revert ProductIsDeprecated.
Proof.
  intros Hl Hd. unfold purchase. apply N.eqb_neq in Hl. by rewrite Hl, Hd.
Qed.

Lemma purchase_own_product (tk : T) (e : Env) (pid : N) (s : State) :
  listedAt (getProduct s pid) ≠ 0 → deprecated (getProduct s pid) = false →
  sender e = seller (getProduct s pid) →
  purchase tk e pid s = Revert CannotBuyOwnProduct.
Proof.
  intros Hl Hd Hs. unfold purchase. apply N.eqb_neq in Hl.
  rewrite Hl, Hd. simpl. rewrite Hs, N.eqb_refl. done.
Qed.

(** Once the three checks pass and the fee arithmetic stays in range,
    [purchase] is decided by the buyer's [transferFrom]. *)
Lemma purchase_buyer_transfer (tk : T) (e : Env) (pid : N) (s : State) :
  let product := getProduct s pid in
  listedAt product ≠ 0 → deprecated product = false → sender e ≠ seller product →
  priceUSDC product * PLATFORM_FEE_BPS ≤ UINT256_MAX →
  match transferFrom tk (this e) (sender e) (this e) (priceUSDC product) with
  | None => purchase tk e pid s = Revert TokenReverted
  | Some (false, _) => purchase tk e pid s = Revert USDCTransferFailed
  | Some (true, _) => True
  end.
Proof.
  intros product Hl Hd Hs Hmul. unfold purchase. fold product.
  apply N.eqb_neq in Hl, Hs. rewrite Hl, Hd, Hs. simpl.
  unfold checked_mul. apply N.leb_le in Hmul. rewrite Hmul. simpl.
  unfold checked_sub.
  assert (priceUSDC product * PLATFORM_FEE_BPS / 10000 ≤ priceUSDC product) as Hfee.
  { change PLATFORM_FEE_BPS with 800.
    apply N.Div0.div_le_upper_bound. lia. }
  apply N.leb_le in Hfee. rewrite Hfee. simpl.
  destruct (transferFrom tk _ _ _ _) as [[[] ?]|]; done.
Qed.

(** *** Listing *)

Lemma listProduct_Ok (tk : T) (e : Env) (nm : string) (tgs : list string)
    (price : N) (uri : string) (s : State) (pid : N) (o : Outcome T) :
  listProduct keccak256 tk e nm tgs price uri s = Ok (pid, o) →
  (1 ≤ String.length nm ≤ 100)%nat ∧
  (1 ≤ length tgs ≤ 8)%nat ∧
  100000 ≤ price ≤ 10000000000 ∧
  (1 ≤ String.length uri)%nat ∧
  transferFrom tk (this e) (sender e) (treasury s) LISTING_FEE = Some (true, tok o) ∧
  pid = keccak256 (sender e) nm (timestamp e) (totalProducts s) ∧
  st o = set_totalProducts (totalProducts s + 1)
           (set_products
              (insert pid
                 {| prod_id := pid; seller := sender e; name := nm; tags := tgs;
                    priceUSDC := price; metadataURI := uri;
                    totalSales := 0; totalRevenueUSDC := 0;
                    listedAt := timestamp e; deprecated := false |}) s) ∧
  logs o = [ProductListed pid (sender e) nm tgs price uri;
            GasSponsored (sender e) "listProduct" (gasCost e)].
Proof.
  intros Hp. unfold listProduct in Hp.
  peel Hp. peel Hp. peel Hp. peel Hp. peel Hp. peel Hp. peel Hp.
  injection Hp as <- <-. simpl.
  apply negb_true_iff in Hm, Hm0, Hm1, Hm2.
  apply orb_false_iff in Hm as [Hn1 Hn2], Hm0 as [Ht1 Ht2], Hm1 as [Hp1 Hp2].
  apply N.eqb_neq in Hn1, Ht1, Hm2. apply N.ltb_ge in Hn2, Ht2, Hp1, Hp2.
  unfold MAX_NAME_LENGTH, MAX_TAGS in *. subst b.
  change (10000 * 10 ^ 6) with 10000000000 in Hp2.
  repeat split; try done; lia.
Qed.

(** *** Reviews *)

Lemma leaveReview_Ok (tk : T) (e : Env) (pid r : N) (s : State) (o : Outcome T) :
  leaveReview tk e pid r s = Ok o →
  let a := ratingOf s pid in
  let n := reviewCountOf s pid in
  1 ≤ r ≤ 5 ∧ r * 100 ≤ UINT8_MAX ∧
  hasUserPurchased s (sender e) pid = true ∧
  listedAt (getProduct s pid) ≠ 0 ∧
  a * n ≤ UINT256_MAX ∧
  st o = set_productRatings (insert pid ((a * n + r * 100) / (n + 1)))
           (set_productReviewCount (insert pid (n + 1)) s) ∧
  tok o = tk ∧
  logs o = [ProductReviewed pid (sender e) r ((a * n + r * 100) / (n + 1));
            GasSponsored (sender e) "leaveReview" (gasCost e)].
Proof.
  intros Hp. unfold leaveReview in Hp.
  peel Hp. peel Hp. peel Hp. peel Hp. peel Hp. peel Hp. peel Hp. peel Hp.
  injection Hp as <-. simpl.
  apply negb_true_iff in Hm, Hm1.
  apply orb_false_iff in Hm as [Hr1 Hr2].
  apply N.ltb_ge in Hr1, Hr2. apply N.eqb_neq in Hm1.
  repeat split; done.
Qed.

(** The aggregate of [pid] after a successful review of [pid]. *)
Lemma leaveReview_aggregate (tk : T) (e : Env) (pid r : N) (s : State) (o : Outcome T) :
  leaveReview tk e pid r s = Ok o →
  ratingOf (st o) pid =
    (ratingOf s pid * reviewCountOf s pid + r * 100) / (reviewCountOf s pid + 1) ∧
  reviewCountOf (st o) pid = reviewCountOf s pid + 1.
Proof.
  intros Hp. apply leaveReview_Ok in Hp as (_ & _ & _ & _ & _ & -> & _).
  split; [unfold ratingOf at 1 | unfold reviewCountOf at 1]; simpl;
    by rewrite lookup_insert_eq.
Qed.

(** A review of another product leaves the aggregate of [pid] alone. *)
Lemma leaveReview_other (tk : T) (e : Env) (pid pid' r : N) (s : State) (o : Outcome T) :
  pid' ≠ pid →
  leaveReview tk e pid' r s = Ok o →
  ratingOf (st o) pid = ratingOf s pid ∧ reviewCountOf (st o) pid = reviewCountOf s pid.
Proof.
  intros Hne Hp. apply leaveReview_Ok in Hp as (_ & _ & _ & _ & _ & -> & _).
  split; [unfold ratingOf | unfold reviewCountOf]; simpl;
    by rewrite lookup_insert_ne.
Qed.

(** With a rating of 3, 4 or 5 the [uint8] product [rating * 100]
    exceeds 255: once the access checks pass, the call panics. *)
Lemma leaveReview_high_rating (tk : T) (e : Env) (pid r : N) (s : State) :
  3 ≤ r ≤ 5 →
  hasUserPurchased s (sender e) pid = true →
  listedAt (getProduct s pid) ≠ 0 →
  leaveReview tk e pid r s = Revert (Panic 0x11).
Proof.
  intros [Hr1 Hr2] Hb Hl. unfold leaveReview.
  assert ((r <? 1) || (5 <? r) = false) as ->.
  { apply orb_false_iff. split; apply N.ltb_ge; lia. }
  rewrite Hb. apply N.eqb_neq in Hl. rewrite Hl. simpl.
  destruct (checked_mul UINT256_MAX _ _) as [currentTotal|err] eqn:E1; simpl.
  2: { unfold checked_mul in E1. destruct (_ <=? _); congruence. }
  destruct (checked_add UINT256_MAX _ _) as [count'|err] eqn:E2; simpl.
  2: { unfold checked_add in E2. destruct (_ <=? _); congruence. }
  unfold checked_mul, UINT8_MAX.
  assert ((r * 100 <=? 255) = false) as ->; [apply N.leb_gt; lia | done].
Qed.

(** *** Deprecation *)

Lemma deprecateProduct_Ok (tk : T) (e : Env) (pid : N) (s : State) (o : Outcome T) :
  deprecateProduct tk e pid s = Ok o →
  sender e = seller (getProduct s pid) ∧
  st o = set_products (insert pid (deprecate (getProduct s pid))) s ∧
  tok o = tk.
Proof.
  intros Hp. unfold deprecateProduct in Hp. peel Hp.
  injection Hp as <-. simpl. apply N.eqb_eq in Hm. done.
Qed.

(** *** Invariants of reachable states *)

Lemma getProduct_insert (f : N) (p : Product) (s : State) (pid : N) :
  getProduct (set_products (insert f p) s) pid =
    if decide (f = pid) then p else getProduct s pid.
Proof.
  unfold getProduct. simpl. rewrite lookup_insert.
  by destruct (decide (f = pid)).
Qed.

Lemma ledger_inv_deploy (d u t : N) (s : State) :
  constructor d u t = Ok s → ledger_inv s.
Proof.
  unfold constructor. intros Hc. peel Hc. peel Hc. injection Hc as <-.
  split; intros; unfold getProduct, hasUserPurchased in *; simpl in *.
  - rewrite lookup_empty. simpl. lia.
  - rewrite lookup_empty in *. done.
Qed.

Lemma ledger_inv_call (tk : T) (e : Env) (c : Call) (s : State) (o : Outcome T) :
  ledger_inv s → 0 < timestamp e → exec keccak256 tk e c s = Ok o → ledger_inv (st o).
Proof.
  intros [Hprice Hbought] Hts Hx.
  destruct c as [nm tgs price uri | pid | pid r | pid | a | | a | ]; simpl in Hx.
  - apply bind_Ok in Hx as ([pid o'] & Hx & [= <-]).
    apply listProduct_Ok in Hx as (_ & _ & Hp & _ & _ & _ & -> & _).
    split; [intros k | intros b k Hb];
      unfold getProduct, hasUserPurchased in *; simpl in *;
      rewrite lookup_insert; destruct (decide (pid = k)); simpl; try lia.
    + apply Hprice.
    + by apply (Hbought b).
  - apply purchase_Ok in Hx as (Hl & _ & _ & _ & _ & _ & -> & _).
    split; [intros k | intros b k];
      unfold getProduct, hasUserPurchased in *; simpl in *;
      rewrite !lookup_insert; destruct (decide (pid = k)) as [<-|Hne]; simpl;
      try done; try apply Hprice.
    destruct (decide ((sender e, pid) = (b, k))) as [[=]|_]; [done | apply Hbought].
  - apply leaveReview_Ok in Hx as (_ & _ & _ & _ & _ & -> & _).
    split; [apply Hprice | apply Hbought].
  - apply deprecateProduct_Ok in Hx as (_ & -> & _).
    split; [intros k | intros b k Hb]; rewrite getProduct_insert;
      destruct (decide (pid = k)) as [<-|Hne]; simpl;
      try apply Hprice; by apply (Hbought b).
  - unfold updateTreasury in Hx. peel Hx. peel Hx. injection Hx as <-.
    split; [apply Hprice | apply Hbought].
  - unfold emergencyWithdraw in Hx. peel Hx.
    destruct (0 <? balanceOf tk (this e)).
    + peel Hx. injection Hx as <-. split; [apply Hprice | apply Hbought].
    + injection Hx as <-. split; [apply Hprice | apply Hbought].
  - unfold transferOwnership in Hx. peel Hx. peel Hx. injection Hx as <-.
    split; [apply Hprice | apply Hbought].
  - unfold renounceOwnership in Hx. peel Hx. injection Hx as <-.
    split; [apply Hprice | apply Hbought].
Qed.

Lemma reachable_inv (s : State) : reachable keccak256 s → ledger_inv s.
Proof.
  intros [tr Hrun]. induction Hrun as [d u t s Hc | tr s tk e c o _ IH Hts Hx].
  - by eapply ledger_inv_deploy.
  - by eapply ledger_inv_call.
Qed.

(** Folding a rating into a bounded average keeps it bounded. *)
Lemma weighted_mean_bound (a n r m : N) :
  a ≤ 100 * m → (a * n + r * 100) / (n + 1) ≤ 100 * N.max r m.
Proof.
  intros Ha. apply N.Div0.div_le_upper_bound.
  assert (a * n ≤ 100 * m * n) by (apply N.mul_le_mono_r; lia).
  nia.
Qed.

(** The stored aggregate of [pid] counts the reviews that went through
    and stays below 100 times the largest rating among them. *)
Lemma aggregate_inv (tr : list (Env * Call)) (s : State) (pid : N) :
  run keccak256 tr s →
  reviewCountOf s pid = N.of_nat (length (ratingsGiven pid tr)) ∧
  ratingOf s pid ≤ 100 * maxRating (ratingsGiven pid tr).
Proof.
  induction 1 as [d u t s Hc | tr s tk e c o _ [IHn IHa] Hts Hx].
  - unfold constructor in Hc. peel Hc. peel Hc. injection Hc as <-.
    unfold reviewCountOf, ratingOf. simpl. rewrite !lookup_empty. simpl. lia.
  - destruct c as [nm tgs price uri | k | k r | k | a | | a | ]; simpl in Hx |- *.
    + apply bind_Ok in Hx as ([k o'] & Hx & [= <-]).
      by apply listProduct_Ok in Hx as (_ & _ & _ & _ & _ & _ & -> & _).
    + by apply purchase_Ok in Hx as (_ & _ & _ & _ & _ & _ & -> & _).
    + destruct (decide (k = pid)) as [->|Hne].
      * pose proof (leaveReview_Ok _ _ _ _ _ _ Hx) as (_ & _ & _ & _ & _ & _).
        apply leaveReview_aggregate in Hx as [-> ->].
        split; [simpl; lia|].
        simpl. by apply weighted_mean_bound.
      * by apply (leaveReview_other _ _ pid) in Hx as [-> ->].
    + by apply deprecateProduct_Ok in Hx as (_ & -> & _).
    + unfold updateTreasury in Hx. peel Hx. peel Hx. by injection Hx as <-.
    + unfold emergencyWithdraw in Hx. peel Hx.
      destruct (0 <? balanceOf tk (this e)); [peel Hx|]; by injection Hx as <-.
    + unfold transferOwnership in Hx. peel Hx. peel Hx. by injection Hx as <-.
    + unfold renounceOwnership in Hx. peel Hx. by injection Hx as <-.
Qed.

(** *** The claims on the ledger contract *)

(** C6. On a reachable ledger, [purchase] fails with [ProductNotFound]
    when the product does not exist, with [ProductIsDeprecated] when its
    deprecated flag is set, with [CannotBuyOwnProduct] when the caller is
    its seller, and with [USDCTransferFailed] when the buyer's payment
    transfer is not made (or with the token's own revert); whenever it
    fails, storage and token are what they were before the call. *)
Theorem purchase_failures (tk : T) (e : Env) (pid : N) (s : State) :
  reachable keccak256 s →
  let product := getProduct s pid in
  (listedAt product = 0 → purchase tk e pid s = Revert ProductNotFound) ∧
  (listedAt product ≠ 0 → deprecated product = true →
     purchase tk e pid s = Revert ProductIsDeprecated) ∧
  (listedAt product ≠ 0 → deprecated product = false → sender e = seller product →
     purchase tk e pid s = Revert CannotBuyOwnProduct) ∧
  (listedAt product ≠ 0 → deprecated product = false → sender e ≠ seller product →
     (∀ tk', transferFrom tk (this e) (sender e) (this e) (priceUSDC product)
               = Some (false, tk') →
             purchase tk e pid s = Revert USDCTransferFailed) ∧
     (transferFrom tk (this e) (sender e) (this e) (priceUSDC product) = None →
      purchase tk e pid s = Revert TokenReverted)) ∧
  (∀ err, purchase tk e pid s = Revert err →
     commit tk s (purchase tk e pid s) = (s, tk) ∧
     ∀ b k, getProduct (fst (commit tk s (purchase tk e pid s))) k = getProduct s k ∧
            hasUserPurchased (fst (commit tk s (purchase tk e pid s))) b k
              = hasUserPurchased s b k ∧
            getProductPurchases (fst (commit tk s (purchase tk e pid s))) k
              = getProductPurchases s k).
Proof.
  intros Hreach product.
  split; [apply purchase_not_found|].
  split; [apply purchase_deprecated|].
  split; [apply purchase_own_product|].
  split.
  - intros Hl Hd Hs.
    pose proof (reachable_inv _ Hreach) as [Hprice _].
    assert (priceUSDC product * PLATFORM_FEE_BPS ≤ UINT256_MAX) as Hmul.
    { specialize (Hprice pid). fold product in Hprice.
      change PLATFORM_FEE_BPS with 800.
      transitivity (10000000000 * 800); [lia | by vm_compute]. }
    pose proof (purchase_buyer_transfer tk e pid s Hl Hd Hs Hmul) as Hbt.
    fold product in Hbt.
    split.
    + intros tk' Htf. by rewrite Htf in Hbt.
    + intros Htf. by rewrite Htf in Hbt.
  - intros err ->. simpl. done.
Qed.

(** C8. [listProduct] succeeds only for a name of 1 to 100 bytes, 1 to 8
    tags, a price within [100000, 10000000000] and a completed transfer
    of the listing fee; the token it leaves is the one after that single
    [transferFrom] of [LISTING_FEE = 2000000] to the treasury, and the
    product it stores is active, carries the submitted price, and has
    no sales and no revenue. *)
Theorem listProduct_success (tk : T) (e : Env) (nm : string) (tgs : list string)
    (price : N) (uri : string) (s : State) (pid : N) (o : Outcome T) :
  listProduct keccak256 tk e nm tgs price uri s = Ok (pid, o) →
  (1 ≤ String.length nm ≤ 100)%nat ∧
  (1 ≤ length tgs ≤ 8)%nat ∧
  100000 ≤ price ≤ 10000000000 ∧
  transferFrom tk (this e) (sender e) (treasury s) 2000000 = Some (true, tok o) ∧
  deprecated (getProduct (st o) pid) = false ∧
  priceUSDC (getProduct (st o) pid) = price ∧
  totalSales (getProduct (st o) pid) = 0 ∧
  totalRevenueUSDC (getProduct (st o) pid) = 0 ∧
  seller (getProduct (st o) pid) = sender e.
Proof.
  intros Hp.
  apply listProduct_Ok in Hp as (Hn & Ht & Hpr & _ & Htf & _ & -> & _).
  unfold getProduct. simpl. rewrite lookup_insert_eq. simpl.
  repeat split; try done; lia.
Qed.

(** C9. On a reachable ledger a proof-of-purchase exists only for a
    listed product, so [leaveReview] never fails with [ProductNotFound]. *)
Theorem purchased_implies_listed (s : State) :
  reachable keccak256 s →
  (∀ b pid, hasUserPurchased s b pid = true → listedAt (getProduct s pid) ≠ 0) ∧
  (∀ (tk : T) e pid r, leaveReview tk e pid r s ≠ Revert ProductNotFound).
Proof.
  intros Hreach. pose proof (reachable_inv _ Hreach) as [_ Hbought].
  split; [exact Hbought|].
  intros tk e pid r. unfold leaveReview.
  destruct ((r <? 1) || (5 <? r)); [done|]. simpl.
  destruct (hasUserPurchased s (sender e) pid) eqn:Hb; [|done]. simpl.
  apply Hbought, N.eqb_neq in Hb. rewrite Hb. simpl.
  unfold checked_mul, checked_add, checked_div.
  repeat (case_match; simpl; try done).
Qed.

(** C7. A successful review with rating [r] on an aggregate of average
    [a] over [n] reviews has [1 ≤ r ≤ 5], stores the floor of
    [(a * n + r * 100) / (n + 1)] as the new average and [n + 1] as the
    new count; on any ledger history the new average is at most 100
    times the largest rating given to the product so far. *)
Theorem review_weighted_mean (tr : list (Env * Call)) (tk : T) (e : Env)
    (pid r : N) (s : State) (o : Outcome T) :
  run keccak256 tr s →
  leaveReview tk e pid r s = Ok o →
  let a := ratingOf s pid in
  let n := reviewCountOf s pid in
  let a' := ratingOf (st o) pid in
  1 ≤ r ≤ 5 ∧
  a' = (a * n + r * 100) / (n + 1) ∧
  a' * (n + 1) ≤ a * n + r * 100 < (a' + 1) * (n + 1) ∧
  reviewCountOf (st o) pid = n + 1 ∧
  a' ≤ 100 * maxRating (r :: ratingsGiven pid tr).
Proof.
  intros Hrun Hp a n a'.
  pose proof (aggregate_inv tr s pid Hrun) as [_ Hbound].
  pose proof (leaveReview_Ok _ _ _ _ _ _ Hp) as (Hr & _).
  apply leaveReview_aggregate in Hp as [Ha' Hn'].
  fold a n a' in Ha', Hn'.
  split; [exact Hr|]. split; [exact Ha'|].
  split.
  { pose proof (N.Div0.div_mod (a * n + r * 100) (n + 1)) as Hdm.
    pose proof (N.mod_lt (a * n + r * 100) (n + 1)) as Hlt.
    rewrite <- Ha', (N.mul_comm (n + 1) a') in Hdm.
    rewrite N.mul_add_distr_r.
    set (m := (a * n + r * 100) `mod` (n + 1)) in *.
    clearbody m a' a n. lia. }
  split; [exact Hn'|].
  rewrite Ha'. simpl. by apply weighted_mean_bound.
Qed.

(** [leaveReview] reads nothing that [deprecateProduct] writes: it gives
    the same verdict, and the same aggregate, on a product before and
    after its deprecation. *)
Lemma leaveReview_ignores_deprecation (tk tk' : T) (e e' : Env) (pid r : N)
    (s : State) (o' : Outcome T) :
  deprecateProduct tk' e' pid s = Ok o' →
  match leaveReview tk e pid r s, leaveReview tk e pid r (st o') with
  | Ok o1, Ok o2 =>
      getProductRating (st o1) pid = getProductRating (st o2) pid ∧ logs o1 = logs o2
  | Revert e1, Revert e2 => e1 = e2
  | _, _ => False
  end.
Proof.
  intros Hd. apply deprecateProduct_Ok in Hd as (_ & -> & _).
  unfold leaveReview. rewrite getProduct_insert. rewrite decide_True by done.
  change (hasUserPurchased (set_products _ s)) with (hasUserPurchased s).
  change (ratingOf (set_products _ s)) with (ratingOf s).
  change (reviewCountOf (set_products _ s)) with (reviewCountOf s).
  change (listedAt (deprecate (getProduct s pid))) with (listedAt (getProduct s pid)).
  destruct (require (negb ((r <? 1) || (5 <? r))) InvalidRating); simpl; [|done].
  destruct (require (hasUserPurchased s (sender e) pid) NotProductBuyer); simpl; [|done].
  destruct (require (negb (listedAt (getProduct s pid) =? 0)) ProductNotFound); simpl; [|done].
  destruct (checked_mul UINT256_MAX _ _); simpl; [|done].
  destruct (checked_add UINT256_MAX _ _); simpl; [|done].
  destruct (checked_mul UINT8_MAX _ _); simpl; [|done].
  destruct (checked_add UINT256_MAX _ _); simpl; [|done].
  destruct (checked_div _ _); simpl; [|done].
  split; [|done].
  unfold getProductRating, ratingOf, reviewCountOf. simpl.
  by rewrite !lookup_insert_eq.
Qed.

(** C4, as the contract has it. The contract keeps no record of who has
    reviewed: a further review by a buyer who already reviewed passes
    the access checks again, so it can fail only on the rating range or
    on an arithmetic panic, and when it succeeds it folds the rating
    into the aggregate and raises the count once more. *)
Theorem repeat_review_accepted (tk tk' : T) (e e' : Env) (pid r1 r2 : N)
    (s : State) (o1 : Outcome T) :
  leaveReview tk e pid r1 s = Ok o1 →
  sender e' = sender e →
  (∀ err, leaveReview tk' e' pid r2 (st o1) = Revert err →
          err = InvalidRating ∨ err = Panic 0x11) ∧
  (∀ o2, leaveReview tk' e' pid r2 (st o1) = Ok o2 →
         ratingOf (st o2) pid =
           (ratingOf (st o1) pid * reviewCountOf (st o1) pid + r2 * 100)
             / (reviewCountOf (st o1) pid + 1) ∧
         reviewCountOf (st o2) pid = reviewCountOf s pid + 2).
Proof.
  intros H1 Hs.
  pose proof (leaveReview_Ok _ _ _ _ _ _ H1) as (_ & _ & Hb & Hl & _ & Hst & _).
  pose proof (leaveReview_aggregate _ _ _ _ _ _ H1) as [_ Hn1].
  split.
  - intros err. unfold leaveReview.
    destruct ((r2 <? 1) || (5 <? r2)); simpl; [intros [= <-]; by left|].
    rewrite Hs, Hst.
    change (hasUserPurchased (set_productRatings _ (set_productReviewCount _ s)))
      with (hasUserPurchased s).
    change (getProduct (set_productRatings _ (set_productReviewCount _ s)))
      with (getProduct s).
    rewrite Hb. apply N.eqb_neq in Hl. rewrite Hl. simpl.
    unfold checked_mul, checked_add, checked_div.
    repeat (case_match; simpl; try done); try (intros [= <-]; by right).
    match goal with Hz : (_ =? 0) = true |- _ => apply N.eqb_eq in Hz; lia end.
  - intros o2 H2. apply leaveReview_aggregate in H2 as [-> ->].
    split; [done | lia].
Qed.

End Ledger.

(** *** The sample history *)

Import Sample.

Lemma run_listed : run hash [(at_ alice 1700000000, listCall)] (st listed).
Proof.
  apply (run_call hash [] genesis (funded false) (at_ alice 1700000000) listCall listed).
  - by apply (run_deploy hash deployer usdc treasuryAcct).
  - done.
  - by vm_compute.
Defined.

Lemma run_bought :
  run hash [(at_ bob 1700000100, PurchaseProduct pid1); (at_ alice 1700000000, listCall)]
    (st bought).
Proof.
  apply (run_call hash _ (st listed) (tok listed) (at_ bob 1700000100)
           (PurchaseProduct pid1) bought).
  - exact run_listed.
  - done.
  - by vm_compute.
Defined.

Lemma run_retired :
  run hash [(at_ alice 1700000200, DeprecateProduct pid1);
            (at_ bob 1700000100, PurchaseProduct pid1);
            (at_ alice 1700000000, listCall)]
    (st retired).
Proof.
  apply (run_call hash _ (st bought) (tok bought) (at_ alice 1700000200)
           (DeprecateProduct pid1) retired).
  - exact run_bought.
  - done.
  - by vm_compute.
Defined.

Lemma purchase_fee_split_witness :
  purchase (tok listed) (at_ bob 1700000100) pid1 (st listed) = Ok bought ∧
  priceUSDC (getProduct (st listed) pid1) = 1000000 ∧
  ProductPurchased pid1 bob alice 1000000 80000 ∈ logs bought ∧
  totalSales (getProduct (st bought) pid1) = 1 ∧
  totalRevenueUSDC (getProduct (st bought) pid1) = 920000.
Proof.
  assert (purchase (tok listed) (at_ bob 1700000100) pid1 (st listed) = Ok bought)
    as Hp by (by vm_compute).
  split; [exact Hp|]. split; [by vm_compute|].
  destruct (purchase_fee_split _ _ _ _ _ Hp) as (_ & _ & Hlog & Hsales & Hrev & _).
  split; [exact Hlog|]. split; [exact Hsales | exact Hrev].
Defined.

Lemma purchase_failures_witness :
  purchase (tok listed) (at_ bob 1700000100) 999 (st listed) = Revert ProductNotFound ∧
  purchase (tok retired) (at_ bob 1700000300) pid1 (st retired) = Revert ProductIsDeprecated ∧
  purchase (tok listed) (at_ alice 1700000100) pid1 (st listed) = Revert CannotBuyOwnProduct ∧
  purchase (funded true) (at_ carol 1700000100) pid1 (st listed) = Revert USDCTransferFailed ∧
  purchase (funded false) (at_ carol 1700000100) pid1 (st listed) = Revert TokenReverted ∧
  commit (funded true) (st listed)
    (purchase (funded true) (at_ carol 1700000100) pid1 (st listed))
    = (st listed, funded true).
Proof.
  assert (reachable hash (st listed)) as Hl by (eexists; exact run_listed).
  assert (reachable hash (st retired)) as Hr by (eexists; exact run_retired).
  split.
  { apply (purchase_failures hash (tok listed) (at_ bob 1700000100) 999 (st listed) Hl).
    by vm_compute. }
  split.
  { apply (purchase_failures hash (tok retired) (at_ bob 1700000300) pid1 (st retired) Hr);
      by vm_compute. }
  split.
  { apply (purchase_failures hash (tok listed) (at_ alice 1700000100) pid1 (st listed) Hl);
      by vm_compute. }
  destruct (purchase_failures hash (funded true) (at_ carol 1700000100) pid1 (st listed) Hl)
    as (_ & _ & _ & Hfalse & Hsame).
  destruct (purchase_failures hash (funded false) (at_ carol 1700000100) pid1 (st listed) Hl)
    as (_ & _ & _ & Hnone & _).
  assert (purchase (funded true) (at_ carol 1700000100) pid1 (st listed)
          = Revert USDCTransferFailed) as Hp.
  { apply Hfalse with (tk' := funded true); by vm_compute. }
  split; [exact Hp|].
  split; [apply Hnone; by vm_compute|].
  by apply (Hsame USDCTransferFailed).
Defined.

Lemma listProduct_success_witness :
  listProduct hash (funded false) (at_ alice 1700000000) "translator" ["nlp"; "text"]
    1000000 "ipfs://translator" genesis = Ok (pid1, listed) ∧
  balance (tok listed) treasuryAcct = 2000000 ∧
  balance (tok listed) alice = 3000000 ∧
  deprecated (getProduct (st listed) pid1) = false ∧
  priceUSDC (getProduct (st listed) pid1) = 1000000 ∧
  totalSales (getProduct (st listed) pid1) = 0 ∧
  totalRevenueUSDC (getProduct (st listed) pid1) = 0.
Proof.
  assert (listProduct hash (funded false) (at_ alice 1700000000) "translator"
            ["nlp"; "text"] 1000000 "ipfs://translator" genesis = Ok (pid1, listed))
    as Hp by (by vm_compute).
  split; [exact Hp|]. split; [by vm_compute|]. split; [by vm_compute|].
  destruct (listProduct_success hash _ _ _ _ _ _ _ _ _ Hp)
    as (_ & _ & _ & _ & Hd & Hprice & Hsales & Hrev & _).
  done.
Defined.

Lemma purchased_implies_listed_witness :
  hasUserPurchased (st bought) bob pid1 = true ∧
  listedAt (getProduct (st bought) pid1) ≠ 0 ∧
  leaveReview (tok bought) (at_ bob 1700000300) pid1 2 (st bought) ≠ Revert ProductNotFound.
Proof.
  assert (reachable hash (st bought)) as Hb by (eexists; exact run_bought).
  destruct (purchased_implies_listed hash (st bought) Hb) as [Hlisted Hnever].
  split; [by vm_compute|]. split; [apply (Hlisted bob); by vm_compute | apply Hnever].
Defined.

Lemma review_weighted_mean_witness :
  leaveReview (tok reviewed1) (at_ bob 1700000400) pid1 1 (st reviewed1) = Ok reviewed2 ∧
  getProductRating (st reviewed1) pid1 = (200, 1) ∧
  ratingOf (st reviewed2) pid1 = (200 * 1 + 1 * 100) / (1 + 1) ∧
  reviewCountOf (st reviewed2) pid1 = 2 ∧
  ratingOf (st reviewed2) pid1 ≤ 100 * 2.
Proof.
  assert (run hash [(at_ bob 1700000300, LeaveReview pid1 2);
                    (at_ alice 1700000200, DeprecateProduct pid1);
                    (at_ bob 1700000100, PurchaseProduct pid1);
                    (at_ alice 1700000000, listCall)] (st reviewed1)) as Hrun.
  { apply (run_call hash _ (st retired) (tok retired) (at_ bob 1700000300)
             (LeaveReview pid1 2) reviewed1); [exact run_retired | done | by vm_compute]. }
  assert (leaveReview (tok reviewed1) (at_ bob 1700000400) pid1 1 (st reviewed1)
          = Ok reviewed2) as Hp by (by vm_compute).
  split; [exact Hp|]. split; [by vm_compute|].
  destruct (review_weighted_mean hash _ _ _ _ _ _ _ Hrun Hp) as (_ & Ha & _ & Hn & Hmax).
  split; [exact Ha|]. split; [exact Hn | exact Hmax].
Defined.

(** C4, as the specification states it, fails: Bob's second review of
    the product is accepted and moves the aggregate from an average of
    200 over one review to 150 over two. *)
Lemma duplicate_review_counterexample :
  leaveReview (tok retired) (at_ bob 1700000300) pid1 2 (st retired) = Ok reviewed1 ∧
  leaveReview (tok reviewed1) (at_ bob 1700000400) pid1 1 (st reviewed1) = Ok reviewed2 ∧
  getProductRating (st reviewed1) pid1 = (200, 1) ∧
  getProductRating (st reviewed2) pid1 = (150, 2) ∧
  getProductRating (st reviewed2) pid1 ≠ getProductRating (st reviewed1) pid1.
Proof.
  split; [vm_compute; reflexivity|].
  split; [vm_compute; reflexivity|].
  split; [vm_compute; reflexivity|].
  split; [vm_compute; reflexivity|].
  vm_compute. discriminate.
Qed.

Lemma repeat_review_accepted_witness :
  leaveReview (tok retired) (at_ bob 1700000300) pid1 2 (st retired) = Ok reviewed1 ∧
  leaveReview (tok reviewed1) (at_ bob 1700000400) pid1 1 (st reviewed1) = Ok reviewed2 ∧
  reviewCountOf (st reviewed2) pid1 = reviewCountOf (st retired) pid1 + 2.
Proof.
  assert (leaveReview (tok retired) (at_ bob 1700000300) pid1 2 (st retired)
          = Ok reviewed1) as H1 by (by vm_compute).
  assert (leaveReview (tok reviewed1) (at_ bob 1700000400) pid1 1 (st reviewed1)
          = Ok reviewed2) as H2 by (by vm_compute).
  split; [exact H1|]. split; [exact H2|].
  destruct (repeat_review_accepted (tok retired) (tok reviewed1)
              (at_ bob 1700000300) (at_ bob 1700000400) pid1 2 1 (st retired) reviewed1
              H1 eq_refl) as [_ Hok].
  by destruct (Hok reviewed2 H2).
Defined.

(** C10. The code disagrees with the claim on the ratings 3, 4 and 5:
    Bob holds proof-of-purchase for the deprecated product, yet his
    review panics on the [uint8] overflow of [rating * 100]; the same
    happens before the deprecation, and a rating of 2 goes through on
    the deprecated product. *)
Theorem review_after_deprecation_panics :
  deprecated (getProduct (st retired) pid1) = true ∧
  hasUserPurchased (st retired) bob pid1 = true ∧
  leaveReview (tok retired) (at_ bob 1700000300) pid1 3 (st retired) = Revert (Panic 0x11) ∧
  leaveReview (tok retired) (at_ bob 1700000300) pid1 4 (st retired) = Revert (Panic 0x11) ∧
  leaveReview (tok retired) (at_ bob 1700000300) pid1 5 (st retired) = Revert (Panic 0x11) ∧
  leaveReview (tok bought) (at_ bob 1700000300) pid1 5 (st bought) = Revert (Panic 0x11) ∧
  leaveReview (tok retired) (at_ bob 1700000300) pid1 2 (st retired) = Ok reviewed1.
Proof.
  split; [by vm_compute|]. split; [by vm_compute|].
  split; [apply leaveReview_high_rating; by vm_compute|].
  split; [apply leaveReview_high_rating; by vm_compute|].
  split; [apply leaveReview_high_rating; by vm_compute|].
  split; [apply leaveReview_high_rating; by vm_compute|].
  by vm_compute.
Qed.

End OuroProps.

(** ** Properties of the mirror-store writers *)

Module MirrorProps.
Import Mirror.

Section Writers.

Context {D : Type} `{Decimal D}.
Variable CHAIN_ID : N.

Abbreviation onChain pid := (λ r : ProductRow D, bool_decide (p_productId r = pid)).
Abbreviation sameId product := (λ r : ProductRow D, bool_decide (p_id r = p_id product)).

(** *** Column types *)

Lemma integer_fits (n : N) : n ≤ INT4_MAX → integer n = Some n.
Proof. intros Hn. unfold integer. by rewrite (proj2 (N.leb_le _ _) Hn). Qed.

Lemma integer_over (n : N) : INT4_MAX < n → integer n = None.
Proof. intros Hn. unfold integer. by rewrite (proj2 (N.leb_gt _ _) Hn). Qed.

Lemma varchar_fits (n : nat) (s : string) :
  (String.length s ≤ n)%nat → varchar n s = Some s.
Proof.
  revert n. induction s as [|c s IH]; intros n Hn; [done|].
  destruct n as [|n]; simpl in *; [lia|].
  rewrite IH by lia. done.
Qed.

(** *** Lookups after an update *)

Lemma find_updateWhere (c c' : ProductRow D → bool) (f : ProductRow D → ProductRow D)
    (rows : list (ProductRow D)) (r : ProductRow D) :
  (∀ x, c (f x) = c x) →
  List.find c rows = Some r → c' r = true →
  List.find c (updateWhere c' f rows) = Some (f r).
Proof.
  intros Hc. induction rows as [|x rows IH]; simpl; [done|].
  destruct (c x) eqn:Hx.
  - intros [= ->] Hr. rewrite Hr, Hc, Hx. done.
  - intros Hfind Hr. destruct (c' x); rewrite ?Hc, Hx; by apply IH.
Qed.

Lemma find_updateWhere_None (c c' : ProductRow D → bool) (f : ProductRow D → ProductRow D)
    (rows : list (ProductRow D)) :
  (∀ x, c (f x) = c x) →
  List.find c rows = None →
  List.find c (updateWhere c' f rows) = None.
Proof.
  intros Hc. induction rows as [|x rows IH]; simpl; [done|].
  destruct (c x) eqn:Hx; [done|].
  intros Hfind. destruct (c' x); rewrite ?Hc, Hx; by apply IH.
Qed.

Lemma updateWhere_Forall2 (R : ProductRow D → ProductRow D → Prop)
    (c : ProductRow D → bool) (f : ProductRow D → ProductRow D)
    (rows : list (ProductRow D)) :
  (∀ r, R r r) → (∀ r, R r (f r)) → Forall2 R rows (updateWhere c f rows).
Proof.
  intros Hrefl Hf. induction rows as [|r rows IH]; simpl; constructor; [|exact IH].
  destruct (c r); [apply Hf | apply Hrefl].
Qed.

(** *** The statements of the purchase route *)

Lemma well_formed_body (body : Body) (h b : string) (bn : N) :
  txHash body = Some h → h ≠ "" →
  body_blockNumber body = Some bn →
  buyerAddress body = Some b → b ≠ "" →
  falsy (txHash body) || bool_decide (body_blockNumber body = None)
    || falsy (buyerAddress body) = false.
Proof.
  intros -> Hh -> -> Hb. simpl.
  rewrite !bool_decide_eq_false_2 by done. done.
Qed.

(** A receipt whose transaction reference is already recorded changes
    nothing. *)
Lemma POST_replay (now : N) (id : string) (body : Body) (db : DB D) :
  is_Some (transactions db !! default "" (txHash body)) →
  snd (POST CHAIN_ID now id body db) = db.
Proof.
  intros [row Hrow]. unfold POST.
  destruct (_ || _); [done|]. by rewrite Hrow.
Qed.

(** What the insert leaves when it goes through: one new row, under the
    hash as its column stores it. *)
Lemma recordPurchase_Some (body : Body) (product : ProductRow D)
    (txs txs' : gmap string (TransactionRow D)) :
  recordPurchase CHAIN_ID body product txs = Some txs' →
  ∃ h' row,
    varchar 66 (default "" (txHash body)) = Some h' ∧
    txs !! h' = None ∧ txs' = <[h' := row]> txs ∧
    t_txHash row = h' ∧ t_productId row = Some (p_id product).
Proof.
  unfold recordPurchase.
  destruct (integer CHAIN_ID) as [c|]; [|done]. simpl.
  destruct (varchar 66 _) as [h'|]; [|done]. simpl.
  destruct (integer (default 0 _)) as [bn|]; [|done]. simpl.
  destruct (varchar 42 _) as [b'|]; [|done]. simpl.
  unfold insertTransaction. simpl.
  destruct (txs !! h') eqn:Hrow; [done|].
  intros [= <-]. eexists _, _. split; [done|]. split; [done|]. split; [reflexivity|]. done.
Qed.

(** A recorded hash blocks the insert, whatever the other values are. *)
Lemma recordPurchase_duplicate (body : Body) (product : ProductRow D)
    (txs : gmap string (TransactionRow D)) (h' : string) :
  varchar 66 (default "" (txHash body)) = Some h' →
  is_Some (txs !! h') →
  recordPurchase CHAIN_ID body product txs = None.
Proof.
  intros Hh [row Hrow]. unfold recordPurchase.
  destruct (integer CHAIN_ID) as [c|]; [|done]. simpl.
  rewrite Hh. simpl.
  destruct (integer (default 0 _)) as [bn|]; [|done]. simpl.
  destruct (varchar 42 _) as [b'|]; [|done]. simpl.
  unfold insertTransaction. simpl. by rewrite Hrow.
Qed.

(** Values within the columns are inserted as they are. *)
Lemma recordPurchase_fits (body : Body) (product : ProductRow D)
    (txs : gmap string (TransactionRow D)) (h b : string) (bn : N) :
  txHash body = Some h → body_blockNumber body = Some bn → buyerAddress body = Some b →
  fitsColumns CHAIN_ID h b bn →
  txs !! h = None →
  ∃ row,
    recordPurchase CHAIN_ID body product txs = Some (<[h := row]> txs) ∧
    t_txHash row = h ∧ t_fromAddress row = b ∧ t_blockNumber row = bn ∧
    t_productId row = Some (p_id product).
Proof.
  intros Eh Ebn Eb (Hc & Hh & Hb & Hbn) Hrow. unfold recordPurchase.
  rewrite Eh, Ebn, Eb. simpl.
  rewrite !integer_fits, !varchar_fits by done. simpl.
  unfold insertTransaction. simpl. rewrite Hrow.
  eexists. split; [reflexivity|]. done.
Qed.

Lemma bumpProduct_room (product : ProductRow D) (now : N) (rows : list (ProductRow D)) :
  roomForSale product rows →
  bumpProduct (p_id product) (sellerFixed (p_priceUSDC product)) now rows
    = Some (updateWhere (sameId product)
              (routeBump (sellerFixed (p_priceUSDC product)) now) rows).
Proof.
  intros Hroom. unfold bumpProduct.
  assert (existsb (λ r, sameId product r
                        && bumpRaises (sellerFixed (p_priceUSDC product)) r) rows = false)
    as ->; [|done].
  induction Hroom as [|r rows Hr _ IH]; simpl; [done|].
  rewrite IH, orb_false_r. case_bool_decide as Hid; [|done]. simpl.
  destruct (Hr Hid) as [Hs Hd]. unfold bumpRaises. rewrite Hd. simpl.
  rewrite orb_false_r. by apply N.leb_gt.
Qed.

Lemma bumpProduct_frame (pid : string) (amount : D) (now : N)
    (rows rows' : list (ProductRow D)) :
  bumpProduct pid amount now rows = Some rows' →
  rows' = updateWhere (λ r, bool_decide (p_id r = pid)) (routeBump amount now) rows.
Proof. unfold bumpProduct. destruct (existsb _ _); [done|]. by intros [= <-]. Qed.

Lemma bumpTag_count (now : N) (rows : gmap string TagRow) (tag t : string) :
  tagCount (bumpTag now rows tag) t =
    tagCount rows t + (if decide (tag = t) then 1 else 0).
Proof.
  unfold tagCount, bumpTag.
  destruct (rows !! tag) as [r|] eqn:Hr; rewrite lookup_insert;
    destruct (decide (tag = t)) as [<-|Hne]; simpl; rewrite ?Hr; simpl; lia.
Qed.

Lemma bumpTags_room (now : N) (tags : list string) (rows : gmap string TagRow) :
  roomForTags tags rows →
  bumpTags now tags rows = (OkTrue, foldl (bumpTag now) rows tags).
Proof.
  unfold roomForTags. revert rows.
  induction tags as [|tag tags IH]; intros rows Hroom; simpl; [done|].
  apply Forall_cons in Hroom as [[Hlen Hcount] Htail].
  cbn [length] in Hcount, Htail. rewrite Nat2N.inj_succ in Hcount.
  unfold upsertTag. rewrite varchar_fits by done. simpl.
  assert (match rows !! tag with
          | Some r => if INT4_MAX <=? a_totalPurchases r then None
                      else Some (bumpTag now rows tag)
          | None => Some (bumpTag now rows tag)
          end = Some (bumpTag now rows tag)) as ->.
  { unfold tagCount in Hcount. destruct (rows !! tag) as [r|]; simpl in *; [|done].
    rewrite (proj2 (N.leb_gt _ _)); [done | lia]. }
  apply IH. eapply Forall_impl; [exact Htail|].
  intros t [Ht Hc]. split; [done|]. rewrite bumpTag_count.
  rewrite Nat2N.inj_succ in Hc. destruct (decide (tag = t)); lia.
Qed.

Lemma bumpTags_answer (now : N) (tags : list string) (rows : gmap string TagRow) :
  fst (bumpTags now tags rows) = OkTrue ∨ fst (bumpTags now tags rows) = ServerError.
Proof.
  revert rows. induction tags as [|tag tags IH]; intros rows; simpl; [by left|].
  destruct (upsertTag now rows tag); [apply IH | by right].
Qed.

(** *** The indexer *)

Lemma syncPurchase_tags (now : N) (log : PurchasedLog) (db : DB D) :
  tagAnalytics (syncPurchase CHAIN_ID now log db) = tagAnalytics db.
Proof. unfold syncPurchase. by destruct (_ || _). Qed.


Lemma syncPurchase_products (now : N) (log : PurchasedLog) (db : DB D) (pid : string) :
  valid_args log →
  args_productId log = Some pid →
  products (syncPurchase CHAIN_ID now log db)
    = updateWhere (onChain pid) (indexerBump (usdcOfUnits (args_priceUSDC log)) now)
        (products db).
Proof.
  unfold valid_args, syncPurchase. intros -> Hpid. simpl. by rewrite Hpid.
Qed.

(** The product counters are bumped by every delivery of a valid log,
    whether or not its transaction hash is already recorded. *)
Lemma syncPurchase_bumps (now : N) (log : PurchasedLog) (db : DB D)
    (pid : string) (r : ProductRow D) :
  valid_args log →
  args_productId log = Some pid →
  List.find (onChain pid) (products db) = Some r →
  List.find (onChain pid) (products (syncPurchase CHAIN_ID now log db))
    = Some (indexerBump (usdcOfUnits (args_priceUSDC log)) now r).
Proof.
  intros Hargs Hpid Hfind. rewrite (syncPurchase_products now log db pid) by done.
  apply find_updateWhere; [done | done |].
  apply find_some in Hfind as [_ Hr]. exact Hr.
Qed.

(** *** The claims on the mirror store *)

(** A fresh receipt for a product of the mirror, with values within the
    columns and room in the counters, goes through all three
    statements. *)
Lemma POST_records (now : N) (id : string) (body : Body) (db : DB D)
    (h b : string) (bn : N) (u : list N) (product : ProductRow D) :
  txHash body = Some h → h ≠ "" →
  body_blockNumber body = Some bn →
  buyerAddress body = Some b → b ≠ "" →
  transactions db !! h = None →
  uuid_in id = Some u →
  List.find (resolves u id) (products db) = Some product →
  fitsColumns CHAIN_ID h b bn →
  roomForSale product (products db) →
  roomForTags (p_tags product) (tagAnalytics db) →
  ∃ db' row,
    POST CHAIN_ID now id body db = (OkTrue, db') ∧
    transactions db' = <[h := row]> (transactions db) ∧
    t_fromAddress row = b ∧ t_blockNumber row = bn ∧
    t_productId row = Some (p_id product) ∧
    products db' = updateWhere (sameId product)
                     (routeBump (sellerFixed (p_priceUSDC product)) now) (products db) ∧
    tagAnalytics db' = foldl (bumpTag now) (tagAnalytics db) (p_tags product) ∧
    sellers db' = sellers db.
Proof.
  intros Hh Hne Hbn Hb Hbne Hrow Hu Hfind Hfits Hsale Htags.
  pose proof (well_formed_body body h b bn Hh Hne Hbn Hb Hbne) as Hwf.
  destruct (recordPurchase_fits body product (transactions db) h b bn Hh Hbn Hb Hfits Hrow)
    as (row & Hins & _ & Hfrom & Hblock & Hpid).
  unfold POST. rewrite Hwf, Hh. simpl. rewrite Hrow, Hu, Hfind, Hins. simpl.
  rewrite (bumpProduct_room product now (products db) Hsale). simpl.
  rewrite (bumpTags_room now (p_tags product) (tagAnalytics db) Htags).
  by eexists _, row.
Qed.






End Writers.

(** *** The sample store *)

Import MirrorSample.

Lemma uuid_translatorId : uuid_in translatorId = Some translatorUuid.
Proof. by vm_compute. Defined.

Lemma find_translator :
  List.find (resolves translatorUuid translatorId) (products store0) = Some translator.
Proof. by vm_compute. Defined.

Lemma fits_bobReceipt : fitsColumns chain "0xfeed" "0xb0b" 42.
Proof. unfold fitsColumns, chain, INT4_MAX. simpl. lia. Defined.

Lemma room_translator :
  roomForSale translator (products store0) ∧
  roomForTags (p_tags translator) (tagAnalytics store0).
Proof.
  split.
  - constructor; [|constructor]. intros _. split; by vm_compute.
  - unfold roomForTags. simpl.
    repeat (constructor; [split; [simpl; lia | by vm_compute]|]). constructor.
Defined.



(** C3. The code disagrees with the claim on the indexer: once Bob's
    purchase is recorded, delivering its log again leaves the
    transaction rows as they are but counts the sale, and its revenue,
    a second time. The route, given the same receipt again, changes
    nothing. *)
Theorem replayed_log_counts_twice :
  let once := syncPurchase chain 10 bobLog store0 in
  let twice := syncPurchase chain 20 bobLog once in
  is_Some (transactions once !! "0xfeed") ∧
  sales once = [1] ∧ revenue once = [100] ∧
  transactions twice = transactions once ∧
  sales twice = [2] ∧ revenue twice = [200] ∧
  onLogs chain [(10, bobLog); (20, bobLog)] store0 = twice ∧
  snd (POST chain 20 "0xabc" bobReceipt once) = once.
Proof.
  cbv zeta.
  split; [vm_compute; eauto|]. split; [by vm_compute|]. split; [by vm_compute|].
  split; [by vm_compute|]. split; [by vm_compute|]. split; [by vm_compute|].
  split; [reflexivity|].
  apply POST_replay. vm_compute. eauto.
Qed.



End MirrorProps.

(** ** Further properties of the ledger contract *)

Module BooksProps.
Import Ouro Books OuroProps.

Section Ledger.

Context {T : Type} `{IERC20 T}.
Variable keccak256 : N → string → N → N → N.

(** *** What each call writes *)

Lemma exec_writes (tk : T) (e : Env) (c : Call) (s : State) (o : Outcome T) :
  exec keccak256 tk e c s = Ok o →
  products (st o) =
    match c with
    | ListProduct nm tgs price uri =>
        let pid := keccak256 (sender e) nm (timestamp e) (totalProducts s) in
        <[pid := {| prod_id := pid; seller := sender e; name := nm; tags := tgs;
                    priceUSDC := price; metadataURI := uri;
                    totalSales := 0; totalRevenueUSDC := 0;
                    listedAt := timestamp e; deprecated := false |}]> (products s)
    | PurchaseProduct pid =>
        let p := getProduct s pid in
        <[pid := sold (totalSales p + 1) (totalRevenueUSDC p + netPrice (priceUSDC p)) p]>
          (products s)
    | DeprecateProduct pid => <[pid := deprecate (getProduct s pid)]> (products s)
    | _ => products s
    end ∧
  hasPurchased (st o) =
    match c with
    | PurchaseProduct pid => <[(sender e, pid) := true]> (hasPurchased s)
    | _ => hasPurchased s
    end ∧
  productPurchases (st o) =
    match c with
    | PurchaseProduct pid =>
        <[pid := getProductPurchases s pid ++ [receiptOf e pid s]]> (productPurchases s)
    | _ => productPurchases s
    end ∧
  totalProducts (st o) =
    match c with
    | ListProduct _ _ _ _ => totalProducts s + 1
    | _ => totalProducts s
    end ∧
  totalVolume (st o) =
    match c with
    | PurchaseProduct pid => totalVolume s + priceUSDC (getProduct s pid)
    | _ => totalVolume s
    end.
Proof.
  intros Hx.
  destruct c as [nm tgs price uri | pid | pid r | pid | a | | a | ]; simpl in Hx.
  - apply bind_Ok in Hx as ([pid o'] & Hx & [= <-]).
    by apply listProduct_Ok in Hx as (_ & _ & _ & _ & _ & -> & -> & _).
  - by apply purchase_Ok in Hx as (_ & _ & _ & _ & _ & _ & -> & _).
  - by apply leaveReview_Ok in Hx as (_ & _ & _ & _ & _ & -> & _).
  - by apply deprecateProduct_Ok in Hx as (_ & -> & _).
  - unfold updateTreasury in Hx. peel Hx. peel Hx. by injection Hx as <-.
  - unfold emergencyWithdraw in Hx. peel Hx.
    destruct (0 <? balanceOf tk (this e)); [peel Hx|]; by injection Hx as <-.
  - unfold transferOwnership in Hx. peel Hx. peel Hx. by injection Hx as <-.
  - unfold renounceOwnership in Hx. peel Hx. by injection Hx as <-.
Qed.




(** *** Proof-of-purchase and purchase records over a history *)

Lemma purchased_exact (tr : list (Env * Call)) (s : State) :
  run keccak256 tr s →
  ∀ b pid, hasUserPurchased s b pid = true ↔ b ∈ buyersOf pid tr.
Proof.
  induction 1 as [d u t s Hc | tr s tk e c o _ IH Hts Hx]; intros b pid.
  - unfold constructor in Hc. peel Hc. peel Hc. injection Hc as <-.
    unfold hasUserPurchased. simpl. rewrite lookup_empty. simpl.
    split; [done | by intros ?%not_elem_of_nil].
  - apply exec_writes in Hx as (_ & Hhp & _).
    unfold hasUserPurchased in *. rewrite Hhp.
    destruct c as [nm tgs price uri | k | k r | k | a | | a | ]; simpl; try apply IH.
    rewrite lookup_insert.
    destruct (decide (k = pid)) as [->|Hne].
    + rewrite elem_of_cons.
      destruct (decide ((sender e, pid) = (b, pid))) as [[= ->]|Hk]; simpl.
      * split; [by left | done].
      * rewrite IH. split; [by right|]. intros [->|Hin]; [congruence | done].
    + destruct (decide ((sender e, k) = (b, pid))) as [[= _ ?]|_]; [done | apply IH].
Qed.

Lemma records_exact (tr : list (Env * Call)) (s : State) :
  run keccak256 tr s →
  (∀ pid, buyer <$> getProductPurchases s pid = reverse (buyersOf pid tr)) ∧
  totalProducts s = N.of_nat (listings tr).
Proof.
  induction 1 as [d u t s Hc | tr s tk e c o _ [IHp IHn] Hts Hx].
  - unfold constructor in Hc. peel Hc. peel Hc. injection Hc as <-.
    split; [|done]. intros pid. unfold getProductPurchases. simpl.
    by rewrite lookup_empty.
  - apply exec_writes in Hx as (_ & _ & Hpp & Htp & _).
    split.
    + intros pid. unfold getProductPurchases in *. rewrite Hpp.
      destruct c as [nm tgs price uri | k | k r | k | a | | a | ]; simpl; try apply IHp.
      rewrite lookup_insert. destruct (decide (k = pid)) as [->|Hne]; simpl.
      * rewrite fmap_app, reverse_cons, IHp. done.
      * apply IHp.
    + rewrite Htp.
      destruct c as [nm tgs price uri | k | k r | k | a | | a | ]; simpl; try apply IHn.
      rewrite IHn. lia.
Qed.

(** *** Product ids and listings *)



(** A slot that holds no listing has no seller. *)
Lemma unlisted_run (tr : list (Env * Call)) (s : State) :
  run keccak256 tr s →
  ∀ pid, listedAt (getProduct s pid) = 0 → seller (getProduct s pid) = 0.
Proof.
  induction 1 as [d u t s Hc | tr s tk e c o _ IH Hts Hx]; intros pid.
  - unfold constructor in Hc. peel Hc. peel Hc. injection Hc as <-.
    unfold getProduct. simpl. by rewrite lookup_empty.
  - apply exec_writes in Hx as (Hpr & _).
    unfold getProduct in *. rewrite Hpr.
    destruct c as [nm tgs price uri | k | k r | k | a | | a | ]; simpl;
      try apply IH; rewrite lookup_insert;
      destruct (decide (_ = pid)) as [<-|Hne]; simpl; try apply IH.
    lia.
Qed.


(** *** Bookkeeping *)


(** *** Ratings over a history *)

Lemma rating_floor_run (tr : list (Env * Call)) (s : State) (pid : N) :
  run keccak256 tr s →
  ratingsGiven pid tr ≠ [] →
  100 * minRating (ratingsGiven pid tr) ≤ ratingOf s pid.
Proof.
  induction 1 as [d u t s Hc | tr s tk e c o Hrun IH Hts Hx]; [done|].
  pose proof (aggregate_inv keccak256 tr s pid Hrun) as [Hcount _].
  destruct c as [nm tgs price uri | k | k r | k | a | | a | ]; simpl in Hx |- *.
  - apply bind_Ok in Hx as ([k o'] & Hx & [= <-]).
    by apply listProduct_Ok in Hx as (_ & _ & _ & _ & _ & _ & -> & _).
  - by apply purchase_Ok in Hx as (_ & _ & _ & _ & _ & _ & -> & _).
  - destruct (decide (k = pid)) as [->|Hne].
    + intros _. pose proof (leaveReview_Ok _ _ _ _ _ _ Hx) as (Hr & _).
      apply leaveReview_aggregate in Hx as [-> _]. simpl.
      apply N.div_le_lower_bound; [lia|].
      destruct (ratingsGiven pid tr) as [|r0 rs] eqn:Hrs.
      * simpl in Hcount. rewrite Hcount. simpl. lia.
      * specialize (IH ltac:(done)).
        set (m := minRating (r0 :: rs)) in *.
        set (n := reviewCountOf s pid) in *.
        assert (100 * m * n ≤ ratingOf s pid * n) by (apply N.mul_le_mono_r; lia).
        nia.
    + intros Hrs. apply (leaveReview_other _ _ pid) in Hx as [-> _]; [by apply IH | done].
  - by apply deprecateProduct_Ok in Hx as (_ & -> & _).
  - unfold updateTreasury in Hx. peel Hx. peel Hx. by injection Hx as <-.
  - unfold emergencyWithdraw in Hx. peel Hx.
    destruct (0 <? balanceOf tk (this e)); [peel Hx|]; by injection Hx as <-.
  - unfold transferOwnership in Hx. peel Hx. peel Hx. by injection Hx as <-.
  - unfold renounceOwnership in Hx. peel Hx. by injection Hx as <-.
Qed.

(** *** Rejections *)

(** X1. [listProduct] tests its arguments in a fixed order and names the
    first that fails: the name (empty or over 100 bytes), the tags (none
    or over 8), the price (outside [100000, 10000000000]), the metadata
    URI (empty). With valid arguments it fails exactly when the fee
    transfer is not made, and otherwise lists under the hashed id. *)
Theorem listProduct_rejections (tk : T) (e : Env) (nm : string) (tgs : list string)
    (price : N) (uri : string) (s : State) :
  let call := listProduct keccak256 tk e nm tgs price uri s in
  let nameOk := (1 ≤ String.length nm ≤ 100)%nat in
  let tagsOk := (1 ≤ length tgs ≤ 8)%nat in
  let priceOk := 100000 ≤ price ≤ 10000000000 in
  (¬ nameOk → call = Revert InvalidName) ∧
  (nameOk → ¬ tagsOk → call = Revert InvalidTags) ∧
  (nameOk → tagsOk → ¬ priceOk → call = Revert InvalidPrice) ∧
  (nameOk → tagsOk → priceOk → uri = "" → call = Revert InvalidMetadataURI) ∧
  (validListing nm tgs price uri →
     match transferFrom tk (this e) (sender e) (treasury s) LISTING_FEE with
     | None => call = Revert TokenReverted
     | Some (false, _) => call = Revert USDCTransferFailed
     | Some (true, tk1) =>
         totalProducts s < UINT256_MAX →
         ∃ o, call = Ok (keccak256 (sender e) nm (timestamp e) (totalProducts s), o) ∧
              tok o = tk1
     end).
Proof.
  cbv zeta. unfold listProduct, validListing, MAX_NAME_LENGTH, MAX_TAGS.
  change (10000 * 10 ^ 6) with 10000000000.
  destruct (N.of_nat (String.length nm) =? 0) eqn:E1;
  destruct (100 <? N.of_nat (String.length nm)) eqn:E2;
  destruct (N.of_nat (length tgs) =? 0) eqn:E3;
  destruct (8 <? N.of_nat (length tgs)) eqn:E4;
  destruct (price <? 100000) eqn:E5;
  destruct (10000000000 <? price) eqn:E6;
  rewrite ?N.eqb_eq, ?N.eqb_neq, ?N.ltb_lt, ?N.ltb_ge in *; simpl;
  repeat split; try done; try lia; try (intros; lia).
  - intros _ _ _ ->. done.
  - intros (_ & _ & _ & Huri).
    assert ((N.of_nat (String.length uri) =? 0) = false) as ->.
    { apply N.eqb_neq. destruct uri; simpl; [done | lia]. }
    simpl. destruct (transferFrom tk _ _ _ _) as [[[] tk1]|]; simpl; try done.
    intros Hlt. unfold checked_add.
    assert ((totalProducts s + 1 <=? UINT256_MAX) = true) as -> by (apply N.leb_le; lia).
    simpl. eexists. split; reflexivity.
Qed.

(** X2. [leaveReview] rejects a rating outside 1..5 with [InvalidRating]
    whoever calls, and a rating inside 1..5 from a caller without
    proof-of-purchase with [NotProductBuyer]. *)
Theorem leaveReview_rejections (tk : T) (e : Env) (pid r : N) (s : State) :
  (r = 0 ∨ 5 < r → leaveReview tk e pid r s = Revert InvalidRating) ∧
  (1 ≤ r ≤ 5 → hasUserPurchased s (sender e) pid = false →
   leaveReview tk e pid r s = Revert NotProductBuyer).
Proof.
  unfold leaveReview. split.
  - intros Hr. assert ((r <? 1) || (5 <? r) = true) as ->; [|done].
    apply orb_true_iff. rewrite !N.ltb_lt. lia.
  - intros Hr ->. assert ((r <? 1) || (5 <? r) = false) as ->; [|done].
    apply orb_false_iff. rewrite !N.ltb_ge. lia.
Qed.

(** *** Deprecation *)

(** X3. [deprecateProduct] is for the seller alone: any other caller gets
    [NotProductOwner]. For the seller it sets the flag and nothing else:
    the product is otherwise as before, every other product, the token
    and the ratings are untouched, one [ProductDeprecated] event is
    logged; and calling it again leaves the storage as it is. *)
Theorem deprecateProduct_effect (tk : T) (e : Env) (pid : N) (s : State) :
  let p := getProduct s pid in
  (sender e ≠ seller p → deprecateProduct tk e pid s = Revert NotProductOwner) ∧
  (sender e = seller p →
   ∃ o : Outcome T, deprecateProduct tk e pid s = Ok o ∧
        getProduct (st o) pid = deprecate p ∧
        listing (getProduct (st o) pid) = listing p ∧
        totalSales (getProduct (st o) pid) = totalSales p ∧
        totalRevenueUSDC (getProduct (st o) pid) = totalRevenueUSDC p ∧
        deprecated (getProduct (st o) pid) = true ∧
        (∀ k, k ≠ pid → getProduct (st o) k = getProduct s k) ∧
        (∀ k, getProductRating (st o) k = getProductRating s k) ∧
        tok o = tk ∧
        logs o = [ProductDeprecated pid (sender e)] ∧
        ∀ tk' e', sender e' = sender e →
          ∃ o' : Outcome T, deprecateProduct tk' e' pid (st o) = Ok o' ∧ st o' = st o).
Proof.
  cbv zeta. unfold deprecateProduct. split.
  - intros Hne. apply N.eqb_neq in Hne. by rewrite Hne.
  - intros Heq. rewrite Heq, N.eqb_refl. simpl. eexists. split; [reflexivity|]. simpl.
    rewrite getProduct_insert, decide_True by done. simpl.
    repeat split; try done.
    + intros k Hk. rewrite getProduct_insert. by rewrite decide_False.
    + intros tk' e' He'. rewrite He', N.eqb_refl. simpl.
      eexists. split; [reflexivity|]. simpl.
      unfold set_products. simpl. by rewrite insert_insert_eq.
Qed.


(** X14. On a reachable ledger nobody but the account that listed a
    product can deprecate it, and a product that was never listed can
    be deprecated by no account (other than the zero address). *)
Theorem deprecate_only_listed (tr : list (Env * Call)) (tk : T) (e : Env)
    (pid : N) (s : State) (o : Outcome T) :
  run keccak256 tr s →
  sender e ≠ 0 →
  deprecateProduct tk e pid s = Ok o →
  listedAt (getProduct s pid) ≠ 0 ∧ seller (getProduct s pid) = sender e.
Proof.
  intros Hrun Hs Hd. apply deprecateProduct_Ok in Hd as (Heq & _).
  split; [|done]. intros Hl. apply (unlisted_run tr s Hrun) in Hl. congruence.
Qed.

(** *** Histories *)

(** X5. Proof-of-purchase is exact and permanent: on the ledger reached
    by a history, an account holds proof-of-purchase for a product
    exactly when one of its purchases of that product went through. *)
Theorem proof_of_purchase_exact (tr : list (Env * Call)) (s : State) (b pid : N) :
  run keccak256 tr s →
  (hasUserPurchased s b pid = true ↔ b ∈ buyersOf pid tr) ∧
  (∀ (tk : T) e c o, exec keccak256 tk e c s = Ok o →
     hasUserPurchased s b pid = true → hasUserPurchased (st o) b pid = true).
Proof.
  intros Hrun. split; [by apply (purchased_exact tr)|].
  intros tk e c o Hx Hb.
  assert (0 < timestamp e ∨ timestamp e = 0) as [Hts|Hts] by lia.
  - apply (purchased_exact ((e, c) :: tr) (st o)); [by eapply run_call|].
    apply (purchased_exact tr s Hrun) in Hb.
    destruct c; simpl; try done. case_decide; [by right | done].
  - apply exec_writes in Hx as (_ & Hhp & _).
    unfold hasUserPurchased in *. rewrite Hhp.
    destruct c; simpl; try done.
    rewrite lookup_insert. by case_decide.
Qed.

(** X6. The purchase records of a product are its successful purchases
    in order, one record per purchase, and [totalProducts] counts the
    successful listings. *)
Theorem purchase_records_exact (tr : list (Env * Call)) (s : State) (pid : N) :
  run keccak256 tr s →
  buyer <$> getProductPurchases s pid = reverse (buyersOf pid tr) ∧
  length (getProductPurchases s pid) = length (buyersOf pid tr) ∧
  totalProducts s = N.of_nat (listings tr).
Proof.
  intros Hrun. destruct (records_exact tr s Hrun) as [Hrec Htp].
  split; [apply Hrec|]. split; [|exact Htp].
  rewrite <- (length_fmap buyer), Hrec. apply length_reverse.
Qed.



(** X9. The rating aggregate of a product over a history: the review
    count is the number of reviews that went through; with none the
    average is 0, and otherwise it lies between 100 times the smallest
    and 100 times the largest rating given. *)
Theorem rating_aggregate_history (tr : list (Env * Call)) (s : State) (pid : N) :
  run keccak256 tr s →
  let rs := ratingsGiven pid tr in
  reviewCountOf s pid = N.of_nat (length rs) ∧
  (rs = [] → ratingOf s pid = 0) ∧
  (rs ≠ [] → 100 * minRating rs ≤ ratingOf s pid ≤ 100 * maxRating rs).
Proof.
  intros Hrun rs.
  destruct (aggregate_inv keccak256 tr s pid Hrun) as [Hcount Hmax].
  fold rs in Hcount, Hmax.
  split; [exact Hcount|]. split.
  - intros Hrs. rewrite Hrs in Hmax. simpl in Hmax. lia.
  - intros Hrs. split; [by apply rating_floor_run | exact Hmax].
Qed.

(** *** Deployment and administration *)

(** X15. Deployment needs nonzero token and treasury addresses. On the
    fresh ledger the counters are zero, every purchase fails with
    [ProductNotFound], every review fails on the rating or for want of
    a purchase, and no account can deprecate anything. *)
Theorem fresh_ledger (d u t : N) :
  d ≠ 0 →
  ((u = 0 ∨ t = 0) → constructor d u t = Revert (RevertString "Invalid addresses")) ∧
  (u ≠ 0 → t ≠ 0 →
   ∃ s, constructor d u t = Ok s ∧
        treasury s = t ∧ owner s = d ∧ getMarketplaceStats s = (0, 0) ∧
        ∀ (tk : T) e pid,
          purchase tk e pid s = Revert ProductNotFound ∧
          (∀ r, leaveReview tk e pid r s = Revert InvalidRating ∨
                leaveReview tk e pid r s = Revert NotProductBuyer) ∧
          (sender e ≠ 0 → deprecateProduct tk e pid s = Revert NotProductOwner)).
Proof.
  intros Hd. unfold constructor.
  assert ((d =? 0) = false) as -> by (by apply N.eqb_neq). simpl.
  split.
  - intros [-> | ->]; simpl; [done|]. by rewrite orb_true_r.
  - intros Hu Ht. apply N.eqb_neq in Hu, Ht. rewrite Hu, Ht. simpl.
    eexists. split; [reflexivity|]. simpl. repeat split; try done.
    + intros r. unfold leaveReview.
      destruct ((r <? 1) || (5 <? r)); simpl; [by left | by right].
    + intros Hs. unfold deprecateProduct, getProduct. simpl.
      rewrite lookup_empty. simpl. apply N.eqb_neq in Hs. by rewrite Hs.
Qed.

(** *** The treasury over a history *)

Lemma exec_treasury (tk : T) (e : Env) (c : Call) (s : State) (o : Outcome T) :
  exec keccak256 tk e c s = Ok o →
  treasury (st o) = match c with UpdateTreasury a => a | _ => treasury s end.
Proof.
  intros Hx.
  destruct c as [nm tgs price uri | pid | pid r | pid | a | | a | ]; simpl in Hx.
  - apply bind_Ok in Hx as ([pid o'] & Hx & [= <-]).
    by apply listProduct_Ok in Hx as (_ & _ & _ & _ & _ & _ & -> & _).
  - by apply purchase_Ok in Hx as (_ & _ & _ & _ & _ & _ & -> & _).
  - by apply leaveReview_Ok in Hx as (_ & _ & _ & _ & _ & -> & _).
  - by apply deprecateProduct_Ok in Hx as (_ & -> & _).
  - unfold updateTreasury in Hx. peel Hx. peel Hx. by injection Hx as <-.
  - unfold emergencyWithdraw in Hx. peel Hx.
    destruct (0 <? balanceOf tk (this e)); [peel Hx|]; by injection Hx as <-.
  - unfold transferOwnership in Hx. peel Hx. peel Hx. by injection Hx as <-.
  - unfold renounceOwnership in Hx. peel Hx. by injection Hx as <-.
Qed.

(** Only [updateTreasury] moves the treasury. *)
Lemma treasury_steps (s : State) (tr : list (Env * Call)) (s' : State) :
  steps keccak256 s tr s' → treasury s' = treasuryAfter (treasury s) tr.
Proof.
  induction 1 as [|tr s' tk e c o _ IH Hx]; [done|].
  apply exec_treasury in Hx. rewrite Hx. simpl. by destruct c.
Qed.

(** X10. [updateTreasury] is for the owner alone and refuses the zero
    address; it changes the treasury and nothing else. From then on,
    through any further successful calls, the treasury is the address
    given to the latest [updateTreasury], and that address is sent the
    platform fee of every purchase and the fee of every listing. *)
Theorem updateTreasury_effect (tk : T) (e : Env) (a : N) (s : State) :
  (sender e ≠ owner s →
   updateTreasury tk e a s = Revert (OwnableUnauthorizedAccount (sender e))) ∧
  (sender e = owner s → a = 0 →
   updateTreasury tk e a s = Revert (RevertString "Invalid address")) ∧
  (sender e = owner s → a ≠ 0 →
   ∃ o : Outcome T,
     updateTreasury tk e a s = Ok o ∧ st o = set_treasury a s ∧ tok o = tk ∧
     logs o = [TreasuryUpdated (treasury s) a] ∧
     ∀ tr s', steps keccak256 (st o) tr s' →
       treasury s' = treasuryAfter a tr ∧
       (∀ tk' e' pid o', purchase tk' e' pid s' = Ok o' →
          ∃ tk1 tk2, transfer tk1 (this e') (treasuryAfter a tr)
                       (priceUSDC (getProduct s' pid) * 800 / 10000) = Some (true, tk2)) ∧
       (∀ tk' e' nm tgs price uri pid o',
          listProduct keccak256 tk' e' nm tgs price uri s' = Ok (pid, o') →
          transferFrom tk' (this e') (sender e') (treasuryAfter a tr) LISTING_FEE
            = Some (true, tok o'))).
Proof.
  unfold updateTreasury, onlyOwner. split; [|split].
  - intros Hne. apply N.eqb_neq in Hne. by rewrite Hne.
  - intros -> ->. by rewrite !N.eqb_refl.
  - intros -> Ha. rewrite N.eqb_refl. apply N.eqb_neq in Ha. rewrite Ha. simpl.
    eexists. split; [reflexivity|]. simpl.
    split; [done|]. split; [done|]. split; [done|].
    intros tr s' Hsteps. apply treasury_steps in Hsteps. simpl in Hsteps.
    rewrite <- Hsteps. split; [done|]. split.
    + intros tk' e' pid o' Hp.
      apply purchase_Ok in Hp as (_ & _ & _ & _ & _ & (tk1 & tk2 & _ & Hfee & _) & _).
      by exists tk1, tk2.
    + intros tk' e' nm tgs price uri pid o' Hl.
      by apply listProduct_Ok in Hl as (_ & _ & _ & _ & Htf & _).
Qed.

(** X11. [emergencyWithdraw] is for the owner alone and never touches
    the storage. With a zero balance it makes no token call; otherwise
    it asks the token to transfer the whole balance of the contract to
    the treasury and succeeds whatever the token answers, failing only
    if the token reverts. *)
Theorem emergencyWithdraw_effect (tk : T) (e : Env) (s : State) :
  (sender e ≠ owner s →
   emergencyWithdraw tk e s = Revert (OwnableUnauthorizedAccount (sender e))) ∧
  (sender e = owner s →
   (balanceOf tk (this e) = 0 →
    emergencyWithdraw tk e s = Ok {| st := s; tok := tk; logs := [] |}) ∧
   (balanceOf tk (this e) ≠ 0 →
    match transfer tk (this e) (treasury s) (balanceOf tk (this e)) with
    | Some (_, tk1) => emergencyWithdraw tk e s = Ok {| st := s; tok := tk1; logs := [] |}
    | None => emergencyWithdraw tk e s = Revert TokenReverted
    end)).
Proof.
  unfold emergencyWithdraw, onlyOwner. split.
  - intros Hne. apply N.eqb_neq in Hne. by rewrite Hne.
  - intros ->. rewrite N.eqb_refl. simpl. split.
    + intros ->. done.
    + intros Hb. assert ((0 <? balanceOf tk (this e)) = true) as ->.
      { apply N.ltb_lt. lia. }
      by destruct (transfer tk _ _ _) as [[? ?]|].
Qed.

End Ledger.

(** *** Settlement against a lawful token *)

Section Settlement.

Context {T : Type} `{ERC20Laws T}.
Variable keccak256 : N → string → N → N → N.

(** X12. A purchase settles in full: the buyer had the price, and
    against a lawful token every balance ends where the three transfers
    put it, the buyer down by the price, the treasury up by the fee and
    the seller up by the rest. A marketplace that is neither treasury
    nor seller holds after the purchase what it held before. *)
Theorem purchase_settlement (tk : T) (e : Env) (pid : N) (s : State) (o : Outcome T) :
  purchase tk e pid s = Ok o →
  this e ≠ sender e →
  let p := getProduct s pid in
  let fee := priceUSDC p * 800 / 10000 in
  priceUSDC p ≤ balanceOf tk (sender e) ∧
  (∀ x, balanceOf (tok o) x + (if decide (x = sender e) then priceUSDC p else 0)
        = balanceOf tk x + (if decide (x = treasury s) then fee else 0)
          + (if decide (x = seller p) then priceUSDC p - fee else 0)) ∧
  (this e ≠ treasury s → this e ≠ seller p →
   balanceOf (tok o) (this e) = balanceOf tk (this e)).
Proof.
  intros Hp Hthis. cbv zeta.
  apply purchase_Ok in Hp as (_ & _ & _ & _ & Hfee & (tk1 & tk2 & H1 & H2 & H3) & _).
  change PLATFORM_FEE_BPS with 800 in *.
  apply transferFrom_moves in H1 as [Hb1 E1].
  apply transfer_moves in H2 as [Hb2 E2].
  apply transfer_moves in H3 as [Hb3 E3].
  set (price := priceUSDC (getProduct s pid)) in *.
  set (fee := price * 800 / 10000) in *.
  assert (∀ x, balanceOf (tok o) x + (if decide (x = sender e) then price else 0)
               = balanceOf tk x + (if decide (x = treasury s) then fee else 0)
                 + (if decide (x = seller (getProduct s pid)) then price - fee else 0))
    as Hall.
  { intros x.
    pose proof (E1 (this e)) as E1t. pose proof (E2 (this e)) as E2t.
    rewrite (E3 x), (E2 x), (E1 x).
    rewrite E2t, E1t in Hb3. rewrite E1t in Hb2.
    rewrite decide_False, decide_True in E1t, Hb2, Hb3 by done.
    rewrite decide_True in Hb3 by done.
    clearbody price fee.
    repeat case_decide; subst; try done; lia. }
  split; [exact Hb1|]. split; [exact Hall|].
  intros Ht Hs. specialize (Hall (this e)).
  rewrite !decide_False in Hall by done. lia.
Qed.

(** X13. A listing costs exactly the listing fee: the seller had
    2,000,000 minor units, and against a lawful token the seller ends
    down by that amount, the treasury up by it, and no other balance
    moves. *)
Theorem listing_fee_settlement (tk : T) (e : Env) (nm : string) (tgs : list string)
    (price : N) (uri : string) (s : State) (pid : N) (o : Outcome T) :
  listProduct keccak256 tk e nm tgs price uri s = Ok (pid, o) →
  2000000 ≤ balanceOf tk (sender e) ∧
  ∀ x, balanceOf (tok o) x + (if decide (x = sender e) then 2000000 else 0)
       = balanceOf tk x + (if decide (x = treasury s) then 2000000 else 0).
Proof.
  intros Hl. apply listProduct_Ok in Hl as (_ & _ & _ & _ & Htf & _).
  change LISTING_FEE with 2000000 in Htf.
  apply transferFrom_moves in Htf as [Hb E]. split; [exact Hb|].
  intros x. rewrite (E x). repeat case_decide; subst; lia.
Qed.

(** X16. When the token honours the transfer, [emergencyWithdraw] by the
    owner empties the marketplace's balance into the treasury. *)
Theorem emergencyWithdraw_sweeps (tk tk1 : T) (e : Env) (s : State) :
  sender e = owner s →
  this e ≠ treasury s →
  balanceOf tk (this e) ≠ 0 →
  transfer tk (this e) (treasury s) (balanceOf tk (this e)) = Some (true, tk1) →
  emergencyWithdraw tk e s = Ok {| st := s; tok := tk1; logs := [] |} ∧
  balanceOf tk1 (this e) = 0 ∧
  balanceOf tk1 (treasury s) = balanceOf tk (treasury s) + balanceOf tk (this e).
Proof.
  intros Ho Ht Hb Htr. split.
  - unfold emergencyWithdraw, onlyOwner. rewrite Ho, N.eqb_refl. simpl.
    assert ((0 <? balanceOf tk (this e)) = true) as -> by (apply N.ltb_lt; lia).
    by rewrite Htr.
  - apply transfer_moves in Htr as [_ E]. split.
    + rewrite (E (this e)), decide_True, decide_False by done. lia.
    + rewrite (E (treasury s)), decide_False, decide_True by done. lia.
Qed.

End Settlement.

(** *** The sample history *)

Import Sample.


Lemma balance_move (src dst amount : N) (tk : Erc20) (x : N) :
  balance (move src dst amount tk) x =
    (if decide (x = src) then balance tk x - amount else balance tk x)
    + (if decide (x = dst) then amount else 0).
Proof.
  unfold balance, move. simpl.
  rewrite !lookup_insert. unfold balance.
  repeat case_decide; subst; simpl; try congruence; lia.
Qed.

(** The reference token is lawful. *)
#[global] Instance Erc20_laws : ERC20Laws Erc20.
Proof.
  split.
  - intros tk tk' caller dst amount. simpl. unfold erc20_transfer, refuse.
    destruct (amount <=? balance tk caller) eqn:Hle.
    + intros [= <-]. apply N.leb_le in Hle. split; [done|]. apply balance_move.
    + by destruct (lenient tk).
  - intros tk tk' caller src dst amount. simpl. unfold erc20_transferFrom, refuse.
    destruct (amount <=? balance tk src) eqn:Hle; simpl.
    + destruct (amount <=? allowance tk src caller); simpl.
      * intros [= <-]. apply N.leb_le in Hle. split; [done|].
        intros x. by rewrite balance_move.
      * by destruct (lenient tk).
    + by destruct (lenient tk).
Qed.

Lemma run_reviewed1 :
  run hash [(at_ bob 1700000300, LeaveReview pid1 2);
            (at_ alice 1700000200, DeprecateProduct pid1);
            (at_ bob 1700000100, PurchaseProduct pid1);
            (at_ alice 1700000000, listCall)]
    (st reviewed1).
Proof.
  apply (run_call hash _ (st retired) (tok retired) (at_ bob 1700000300)
           (LeaveReview pid1 2) reviewed1).
  - exact run_retired.
  - done.
  - by vm_compute.
Defined.

Lemma run_reviewed2 :
  run hash [(at_ bob 1700000400, LeaveReview pid1 1);
            (at_ bob 1700000300, LeaveReview pid1 2);
            (at_ alice 1700000200, DeprecateProduct pid1);
            (at_ bob 1700000100, PurchaseProduct pid1);
            (at_ alice 1700000000, listCall)]
    (st reviewed2).
Proof.
  apply (run_call hash _ (st reviewed1) (tok reviewed1) (at_ bob 1700000400)
           (LeaveReview pid1 1) reviewed2).
  - exact run_reviewed1.
  - done.
  - by vm_compute.
Defined.

Lemma listProduct_rejections_witness :
  listProduct hash (funded false) (at_ alice 1700000000) "" ["nlp"] 1000000 "ipfs://x" genesis
    = Revert InvalidName ∧
  listProduct hash (funded false) (at_ alice 1700000000) "translator" [] 1000000 "ipfs://x" genesis
    = Revert InvalidTags ∧
  listProduct hash (funded false) (at_ alice 1700000000) "translator" ["nlp"] 99999 "ipfs://x" genesis
    = Revert InvalidPrice ∧
  listProduct hash (funded false) (at_ alice 1700000000) "translator" ["nlp"] 1000000 "" genesis
    = Revert InvalidMetadataURI ∧
  listProduct hash (funded true) (at_ carol 1700000000) "translator" ["nlp"] 1000000 "ipfs://x" genesis
    = Revert USDCTransferFailed.
Proof.
  split.
  { apply (listProduct_rejections hash (funded false) (at_ alice 1700000000)
             "" ["nlp"] 1000000 "ipfs://x" genesis). simpl. lia. }
  split.
  { apply (listProduct_rejections hash (funded false) (at_ alice 1700000000)
             "translator" [] 1000000 "ipfs://x" genesis); simpl; lia. }
  split.
  { apply (listProduct_rejections hash (funded false) (at_ alice 1700000000)
             "translator" ["nlp"] 99999 "ipfs://x" genesis); simpl; lia. }
  split.
  { apply (listProduct_rejections hash (funded false) (at_ alice 1700000000)
             "translator" ["nlp"] 1000000 "" genesis); simpl; try lia. done. }
  destruct (listProduct_rejections hash (funded true) (at_ carol 1700000000)
              "translator" ["nlp"] 1000000 "ipfs://x" genesis) as (_ & _ & _ & _ & Hv).
  assert (validListing "translator" ["nlp"] 1000000 "ipfs://x") as Hok.
  { unfold validListing. simpl. repeat split; try lia. done. }
  exact (Hv Hok).
Defined.

Lemma leaveReview_rejections_witness :
  leaveReview (tok bought) (at_ carol 1700000300) pid1 0 (st bought) = Revert InvalidRating ∧
  leaveReview (tok bought) (at_ bob 1700000300) pid1 6 (st bought) = Revert InvalidRating ∧
  leaveReview (tok bought) (at_ carol 1700000300) pid1 2 (st bought) = Revert NotProductBuyer.
Proof.
  split.
  { apply (leaveReview_rejections (tok bought) (at_ carol 1700000300) pid1 0 (st bought)).
    by left. }
  split.
  { apply (leaveReview_rejections (tok bought) (at_ bob 1700000300) pid1 6 (st bought)).
    right. lia. }
  apply (leaveReview_rejections (tok bought) (at_ carol 1700000300) pid1 2 (st bought)).
  - lia.
  - by vm_compute.
Defined.

Lemma deprecateProduct_effect_witness :
  deprecateProduct (tok bought) (at_ bob 1700000200) pid1 (st bought) = Revert NotProductOwner ∧
  ∃ o, deprecateProduct (tok bought) (at_ alice 1700000200) pid1 (st bought) = Ok o ∧
       deprecated (getProduct (st o) pid1) = true ∧
       totalSales (getProduct (st o) pid1) = 1.
Proof.
  destruct (deprecateProduct_effect (tok bought) (at_ bob 1700000200) pid1 (st bought))
    as [Hno _].
  destruct (deprecateProduct_effect (tok bought) (at_ alice 1700000200) pid1 (st bought))
    as [_ Hyes].
  split; [apply Hno; by vm_compute|].
  destruct Hyes as (o & Ho & _ & _ & Hsales & _ & Hdep & _); [by vm_compute|].
  exists o. split; [exact Ho|]. split; [exact Hdep|].
  rewrite Hsales. by vm_compute.
Defined.


Lemma deprecate_only_listed_witness :
  listedAt (getProduct (st bought) pid1) ≠ 0 ∧ seller (getProduct (st bought) pid1) = alice.
Proof.
  apply (deprecate_only_listed hash _ (tok bought) (at_ alice 1700000200) pid1
           (st bought) retired run_bought); [done | by vm_compute].
Defined.

Lemma proof_of_purchase_exact_witness :
  hasUserPurchased (st bought) bob pid1 = true ∧
  (hasUserPurchased (st bought) carol pid1 = true → carol ∈ [bob]).
Proof.
  destruct (proof_of_purchase_exact (T := Erc20) hash _ (st bought) bob pid1 run_bought)
    as [Hbob _].
  destruct (proof_of_purchase_exact (T := Erc20) hash _ (st bought) carol pid1 run_bought)
    as [Hcarol _].
  split; [apply Hbob; vm_compute; apply list_elem_of_here | apply Hcarol].
Defined.

Lemma purchase_records_exact_witness :
  buyer <$> getProductPurchases (st bought) pid1 = [bob] ∧
  length (getProductPurchases (st bought) pid1) = 1%nat ∧
  totalProducts (st bought) = 1.
Proof.
  exact (purchase_records_exact (T := Erc20) hash _ (st bought) pid1 run_bought).
Defined.



Lemma rating_aggregate_history_witness :
  reviewCountOf (st reviewed2) pid1 = 2 ∧
  100 * 1 ≤ ratingOf (st reviewed2) pid1 ≤ 100 * 2.
Proof.
  destruct (rating_aggregate_history hash _ (st reviewed2) pid1 run_reviewed2)
    as (Hcount & _ & Hbounds).
  split; [exact Hcount|]. by apply Hbounds.
Defined.

Lemma fresh_ledger_witness :
  constructor deployer usdc treasuryAcct = Ok genesis ∧
  purchase (funded false) (at_ bob 1700000000) pid1 genesis = Revert ProductNotFound ∧
  constructor deployer usdc 0 = Revert (RevertString "Invalid addresses").
Proof.
  destruct (fresh_ledger (T := Erc20) deployer usdc treasuryAcct ltac:(done)) as [_ Hok].
  destruct (fresh_ledger (T := Erc20) deployer usdc 0 ltac:(done)) as [Hbad _].
  destruct Hok as (s & Hs & _ & _ & _ & Hall); [done | done |].
  assert (s = genesis) as ->.
  { vm_compute in Hs. injection Hs as <-. reflexivity. }
  split; [exact Hs|]. split; [apply Hall | apply Hbad; by right].
Defined.

(** The owner moves the treasury to account 77 after the first listing;
    Alice then lists a second product and Bob buys the first. *)
Lemma updateTreasury_effect_witness :
  updateTreasury (tok listed) (at_ alice 1700000050) 77 (st listed)
    = Revert (OwnableUnauthorizedAccount alice) ∧
  updateTreasury (tok listed) (at_ deployer 1700000050) 0 (st listed)
    = Revert (RevertString "Invalid address") ∧
  ∃ moved relisted sold,
    updateTreasury (tok listed) (at_ deployer 1700000050) 77 (st listed) = Ok moved ∧
    exec hash (tok moved) (at_ alice 1700000060)
      (ListProduct "summarizer" ["nlp"] 500000 "ipfs://summarizer") (st moved) = Ok relisted ∧
    purchase (tok relisted) (at_ bob 1700000100) pid1 (st relisted) = Ok sold ∧
    treasury (st relisted) = 77 ∧
    balance (tok relisted) 77 = 2000000 ∧
    balance (tok sold) 77 = 2080000 ∧
    ∃ tk1 tk2, transfer tk1 market 77 80000 = Some (true, tk2).
Proof.
  destruct (updateTreasury_effect hash (tok listed) (at_ alice 1700000050) 77 (st listed))
    as (Hno & _).
  destruct (updateTreasury_effect hash (tok listed) (at_ deployer 1700000050) 0 (st listed))
    as (_ & Hzero & _).
  destruct (updateTreasury_effect hash (tok listed) (at_ deployer 1700000050) 77 (st listed))
    as (_ & _ & Hyes).
  split; [apply Hno; by vm_compute|]. split; [by apply Hzero|].
  destruct Hyes as (moved & Hmoved & _ & Htok & _ & Hlater); [done | done |].
  destruct (exec hash (tok moved) (at_ alice 1700000060)
              (ListProduct "summarizer" ["nlp"] 500000 "ipfs://summarizer") (st moved))
    as [relisted|err] eqn:Hrelisted.
  2: { vm_compute in Hmoved. injection Hmoved as <-. vm_compute in Hrelisted. discriminate. }
  destruct (purchase (tok relisted) (at_ bob 1700000100) pid1 (st relisted))
    as [sold|err] eqn:Hsold.
  2: { vm_compute in Hmoved. injection Hmoved as <-.
       vm_compute in Hrelisted. injection Hrelisted as <-.
       vm_compute in Hsold. discriminate. }
  destruct (Hlater [(at_ alice 1700000060,
                     ListProduct "summarizer" ["nlp"] 500000 "ipfs://summarizer")]
              (st relisted)) as (Htreasury & Hfee & _).
  { eapply steps_call; [apply steps_nil | exact Hrelisted]. }
  exists moved, relisted, sold. split; [done|]. split; [done|]. split; [done|].
  split; [exact Htreasury|]. split.
  { vm_compute in Hmoved. injection Hmoved as <-.
    vm_compute in Hrelisted. injection Hrelisted as <-. by vm_compute. }
  split.
  - pose proof Hsold as Hsold'.
    vm_compute in Hmoved. injection Hmoved as <-.
    vm_compute in Hrelisted. injection Hrelisted as <-.
    vm_compute in Hsold'. injection Hsold' as <-. by vm_compute.
  - destruct (Hfee _ _ _ _ Hsold) as (tk1 & tk2 & Htransfer).
    exists tk1, tk2.
    assert (priceUSDC (getProduct (st relisted) pid1) * 800 / 10000 = 80000) as Hamount.
    { vm_compute in Hmoved. injection Hmoved as <-.
      vm_compute in Hrelisted. injection Hrelisted as <-. by vm_compute. }
    rewrite Hamount in Htransfer. exact Htransfer.
Defined.

(** A token state in which 500 minor units sit on the marketplace. *)
Lemma emergencyWithdraw_effect_witness :
  emergencyWithdraw (tok bought) (at_ bob 1700000500) (st bought)
    = Revert (OwnableUnauthorizedAccount bob) ∧
  emergencyWithdraw (tok bought) (at_ deployer 1700000500) (st bought)
    = Ok {| st := st bought; tok := tok bought; logs := [] |} ∧
  emergencyWithdraw (move bob market 500 (tok bought)) (at_ deployer 1700000500) (st bought)
    = Ok {| st := st bought;
            tok := move market treasuryAcct 500 (move bob market 500 (tok bought));
            logs := [] |}.
Proof.
  destruct (emergencyWithdraw_effect (tok bought) (at_ bob 1700000500) (st bought))
    as [Hno _].
  destruct (emergencyWithdraw_effect (tok bought) (at_ deployer 1700000500) (st bought))
    as [_ Hown].
  destruct (emergencyWithdraw_effect (move bob market 500 (tok bought))
              (at_ deployer 1700000500) (st bought)) as [_ Hown'].
  split; [apply Hno; by vm_compute|].
  destruct Hown as [Hzero _]; [by vm_compute|].
  split; [apply Hzero; by vm_compute|].
  destruct Hown' as [_ Hsweep]; [by vm_compute|].
  specialize (Hsweep ltac:(by vm_compute)).
  vm_compute in Hsweep. vm_compute. exact Hsweep.
Defined.

Lemma purchase_settlement_witness :
  balance (tok bought) bob + 1000000 = balance (tok listed) bob ∧
  balance (tok bought) treasuryAcct = balance (tok listed) treasuryAcct + 80000 ∧
  balance (tok bought) alice = balance (tok listed) alice + 920000 ∧
  balance (tok bought) market = balance (tok listed) market.
Proof.
  assert (purchase (tok listed) (at_ bob 1700000100) pid1 (st listed) = Ok bought)
    as Hp by (by vm_compute).
  destruct (purchase_settlement (tok listed) (at_ bob 1700000100) pid1 (st listed) bought
              Hp ltac:(done)) as (_ & Hall & Hkeep).
  split; [exact (Hall bob)|].
  split; [exact (Hall treasuryAcct)|].
  split; [exact (Hall alice)|].
  apply Hkeep; by vm_compute.
Defined.

Lemma listing_fee_settlement_witness :
  balance (tok listed) alice + 2000000 = balance (funded false) alice ∧
  balance (tok listed) treasuryAcct = balance (funded false) treasuryAcct + 2000000 ∧
  balance (tok listed) bob = balance (funded false) bob.
Proof.
  assert (listProduct hash (funded false) (at_ alice 1700000000) "translator"
            ["nlp"; "text"] 1000000 "ipfs://translator" genesis = Ok (pid1, listed))
    as Hl by (by vm_compute).
  destruct (listing_fee_settlement hash _ _ _ _ _ _ _ _ _ Hl) as [_ Hall].
  split; [exact (Hall alice)|]. split; [exact (Hall treasuryAcct)|].
  pose proof (Hall bob) as Hbob. simpl in Hbob. lia.
Defined.

Lemma emergencyWithdraw_sweeps_witness :
  balance (move market treasuryAcct 500 (move bob market 500 (tok bought))) market = 0 ∧
  balance (move market treasuryAcct 500 (move bob market 500 (tok bought))) treasuryAcct
    = balance (move bob market 500 (tok bought)) treasuryAcct + 500.
Proof.
  destruct (emergencyWithdraw_sweeps (move bob market 500 (tok bought))
              (move market treasuryAcct 500 (move bob market 500 (tok bought)))
              (at_ deployer 1700000500) (st bought)
              ltac:(by vm_compute) ltac:(by vm_compute) ltac:(by vm_compute)
              ltac:(by vm_compute))
    as (_ & Hzero & Hgain).
  split; [exact Hzero | exact Hgain].
Defined.

End BooksProps.

(** ** Further properties of the mirror-store writers *)

Module WritersProps.
Import Mirror Delivery MirrorProps.

Section Writers.

Context {D : Type} `{Decimal D}.
Variable CHAIN_ID : N.

(** *** The purchase route, case by case *)

Lemma POST_missing (now : N) (id : string) (body : Body) (db : DB D) :
  missing body = true → POST CHAIN_ID now id body db = (BadRequest, db).
Proof. unfold POST, missing. by intros ->. Qed.

Lemma POST_recorded (now : N) (id : string) (body : Body) (db : DB D)
    (row : TransactionRow D) :
  missing body = false →
  transactions db !! default "" (txHash body) = Some row →
  POST CHAIN_ID now id body db = (OkTrue, db).
Proof. unfold POST, missing. intros -> Hrow. by rewrite Hrow. Qed.

Lemma POST_malformed (now : N) (id : string) (body : Body) (db : DB D) :
  missing body = false →
  transactions db !! default "" (txHash body) = None →
  uuid_in id = None →
  POST CHAIN_ID now id body db = (ServerError, db).
Proof. unfold POST, missing. intros -> Hrow Hu. by rewrite Hrow, Hu. Qed.

Lemma POST_unknown (now : N) (id : string) (body : Body) (db : DB D) (u : list N) :
  missing body = false →
  transactions db !! default "" (txHash body) = None →
  uuid_in id = Some u →
  List.find (resolves u id) (products db) = None →
  POST CHAIN_ID now id body db = (NotFound, db).
Proof. unfold POST, missing. intros -> Hrow Hu Hfind. by rewrite Hrow, Hu, Hfind. Qed.

Lemma POST_refused (now : N) (id : string) (body : Body) (db : DB D) (u : list N)
    (product : ProductRow D) :
  missing body = false →
  transactions db !! default "" (txHash body) = None →
  uuid_in id = Some u →
  List.find (resolves u id) (products db) = Some product →
  recordPurchase CHAIN_ID body product (transactions db) = None →
  POST CHAIN_ID now id body db = (ServerError, db).
Proof.
  unfold POST, missing. intros -> Hrow Hu Hfind Hins. by rewrite Hrow, Hu, Hfind, Hins.
Qed.

(** After the insert: the transaction row is in the store, the product
    rows are bumped or left, and the answer is ok or 500. *)
Lemma POST_wrote (now : N) (id : string) (body : Body) (db : DB D) (u : list N)
    (product : ProductRow D) (txs : gmap string (TransactionRow D)) :
  missing body = false →
  transactions db !! default "" (txHash body) = None →
  uuid_in id = Some u →
  List.find (resolves u id) (products db) = Some product →
  recordPurchase CHAIN_ID body product (transactions db) = Some txs →
  ∃ response db',
    POST CHAIN_ID now id body db = (response, db') ∧
    (response = OkTrue ∨ response = ServerError) ∧
    transactions db' = txs ∧
    sellers db' = sellers db ∧
    Forall2 sameProduct (products db) (products db').
Proof.
  unfold POST, missing. intros -> Hrow Hu Hfind Hins. rewrite Hrow, Hu, Hfind, Hins.
  assert (∀ r : ProductRow D, sameProduct r r) as Hrefl by (intros r; split; [done | lia]).
  destruct (bumpProduct _ _ _ _) as [rows|] eqn:Hbump.
  - apply bumpProduct_frame in Hbump. simpl in Hbump.
    pose proof (bumpTags_answer now (p_tags product) (tagAnalytics db)) as Hans.
    simpl. destruct (bumpTags now (p_tags product) (tagAnalytics db)) as [response tagRows].
    eexists _, _. split; [reflexivity|]. split; [exact Hans|]. simpl.
    split; [done|]. split; [done|].
    rewrite Hbump. apply updateWhere_Forall2; [done|].
    intros x. split; [done | simpl; lia].
  - eexists _, _. split; [reflexivity|]. split; [by right|]. simpl.
    split; [done|]. split; [done|].
    apply Forall2_same_length_lookup_2; [done | naive_solver].
Qed.

(** The ways through the route. *)
Lemma POST_cases (now : N) (id : string) (body : Body) (db : DB D) :
  (missing body = true ∧ ∀ t, POST CHAIN_ID t id body db = (BadRequest, db)) ∨
  (missing body = false ∧ is_Some (transactions db !! default "" (txHash body)) ∧
   ∀ t, POST CHAIN_ID t id body db = (OkTrue, db)) ∨
  (missing body = false ∧ transactions db !! default "" (txHash body) = None ∧
   uuid_in id = None ∧ ∀ t, POST CHAIN_ID t id body db = (ServerError, db)) ∨
  (missing body = false ∧ transactions db !! default "" (txHash body) = None ∧
   ∃ u, uuid_in id = Some u ∧ List.find (resolves u id) (products db) = None ∧
        ∀ t, POST CHAIN_ID t id body db = (NotFound, db)) ∨
  (missing body = false ∧ transactions db !! default "" (txHash body) = None ∧
   ∃ u product,
     uuid_in id = Some u ∧ List.find (resolves u id) (products db) = Some product ∧
     recordPurchase CHAIN_ID body product (transactions db) = None ∧
     ∀ t, POST CHAIN_ID t id body db = (ServerError, db)) ∨
  (missing body = false ∧ transactions db !! default "" (txHash body) = None ∧
   ∃ u product h' row response db',
     uuid_in id = Some u ∧ List.find (resolves u id) (products db) = Some product ∧
     varchar 66 (default "" (txHash body)) = Some h' ∧
     transactions db !! h' = None ∧
     POST CHAIN_ID now id body db = (response, db') ∧
     (response = OkTrue ∨ response = ServerError) ∧
     transactions db' = <[h' := row]> (transactions db) ∧
     sellers db' = sellers db ∧
     Forall2 sameProduct (products db) (products db')).
Proof.
  destruct (missing body) eqn:Hm.
  { left. split; [done|]. intros t. by apply POST_missing. }
  destruct (transactions db !! default "" (txHash body)) as [row|] eqn:Hrow.
  { right; left. split; [done|]. split; [by eexists|]. intros t. by eapply POST_recorded. }
  destruct (uuid_in id) as [u|] eqn:Hu.
  2: { right; right; left. repeat (split; [done|]). intros t. by apply POST_malformed. }
  destruct (List.find (resolves u id) (products db)) as [product|] eqn:Hfind.
  2: { right; right; right; left. repeat (split; [done|]).
       exists u. repeat (split; [done|]). intros t. by apply (POST_unknown t id body db u). }
  destruct (recordPurchase CHAIN_ID body product (transactions db)) as [txs|] eqn:Hins.
  2: { right; right; right; right; left. repeat (split; [done|]).
       exists u, product. repeat (split; [done|]). intros t. by eapply POST_refused. }
  right; right; right; right; right. repeat (split; [done|]).
  destruct (recordPurchase_Some CHAIN_ID body product _ _ Hins)
    as (h' & row & Hh' & Hnew & Htxs & _).
  destruct (POST_wrote now id body db u product txs Hm Hrow Hu Hfind Hins)
    as (response & db' & Hp & Hans & Htx & Hs & Hrows).
  exists u, product, h', row, response, db'. rewrite Htx, Htxs. done.
Qed.

(** Once the hash is recorded as its column stores it, a request
    carrying it writes nothing: the guard stops it, or else the insert
    raises on the duplicate. *)
Lemma POST_stuck (now : N) (id : string) (body : Body) (db : DB D) (h' : string) :
  varchar 66 (default "" (txHash body)) = Some h' →
  is_Some (transactions db !! h') →
  snd (POST CHAIN_ID now id body db) = db.
Proof.
  intros Hh Hrow. unfold POST.
  destruct (_ || _); [done|].
  destruct (transactions db !! default "" (txHash body)); [done|].
  destruct (uuid_in id) as [u|]; [|done].
  destruct (List.find _ (products db)) as [product|]; [|done].
  by rewrite (recordPurchase_duplicate CHAIN_ID body product _ h' Hh Hrow).
Qed.

(** X17. Replaying a request to the purchase route changes nothing: the
    store after two identical requests is the store after the first. *)
Theorem POST_idempotent (now1 now2 : N) (id : string) (body : Body) (db : DB D) :
  snd (POST CHAIN_ID now2 id body (snd (POST CHAIN_ID now1 id body db)))
    = snd (POST CHAIN_ID now1 id body db).
Proof.
  destruct (POST_cases now1 id body db)
    as [[_ Hp] | [(_ & _ & Hp) | [(_ & _ & _ & Hp) | [(_ & _ & u & _ & _ & Hp) |
        [(_ & _ & u & p & _ & _ & _ & Hp) |
         (_ & _ & u & p & h' & row & r & db' & _ & _ & Hh & _ & Hp & _ & Htx & _)]]]]];
    try (by rewrite (Hp now1); simpl; rewrite (Hp now2)).
  rewrite Hp. simpl. apply (POST_stuck now2 id body db' h' Hh).
  rewrite Htx, lookup_insert_eq. by eexists.
Qed.

Lemma falsy_spec (v : option string) : falsy v = true ↔ v = None ∨ v = Some "".
Proof.
  destruct v as [x|]; simpl.
  - rewrite bool_decide_eq_true. split; [intros ->; by right | by intros [|[= ->]]].
  - split; [by left | done].
Qed.

Lemma missing_spec (body : Body) :
  missing body = true ↔
  (txHash body = None ∨ txHash body = Some "") ∨ body_blockNumber body = None ∨
  (buyerAddress body = None ∨ buyerAddress body = Some "").
Proof.
  unfold missing. rewrite !orb_true_iff, !falsy_spec, bool_decide_eq_true. tauto.
Qed.

(** A value of the request that its column refuses stops the insert. *)
Lemma recordPurchase_refuses (body : Body) (product : ProductRow D)
    (txs : gmap string (TransactionRow D)) :
  integer (default 0 (body_blockNumber body)) = None ∨
  varchar 66 (default "" (txHash body)) = None ∨
  varchar 42 (default "" (buyerAddress body)) = None →
  recordPurchase CHAIN_ID body product txs = None.
Proof.
  intros Hbad. unfold recordPurchase.
  destruct (integer CHAIN_ID) as [c|]; [|done]. simpl.
  destruct (varchar 66 _) as [h'|]; [|done]. simpl.
  destruct (integer (default 0 _)) as [bn|]; [|done]. simpl.
  destruct (varchar 42 _) as [b'|]; [|done].
  by destruct Hbad as [|[|]].
Qed.

(** X19. The failures of the purchase route. It answers 400 exactly when
    [txHash] or [buyerAddress] is absent or empty or [blockNumber] is
    absent, and 404 only when the path id is a uuid that no product row
    resolves; both leave the store as it was. For a request with all
    fields and a hash that is not recorded, it answers 500 and leaves
    the store as it was when the path id is not a uuid, and, for a
    product of the mirror, when the block number is beyond [integer] or
    the hash or the buyer address is refused by its column. Whenever it
    answers 500, either the store is as it was, or the failure came
    after the insert: the transaction row is then in the store, the
    sellers are untouched and each product row has at most one more
    sale. *)
Theorem POST_failure_modes (now : N) (id : string) (body : Body) (db : DB D) :
  let answer := fst (POST CHAIN_ID now id body db) in
  let after := snd (POST CHAIN_ID now id body db) in
  (answer = BadRequest ↔
   (txHash body = None ∨ txHash body = Some "") ∨ body_blockNumber body = None ∨
   (buyerAddress body = None ∨ buyerAddress body = Some "")) ∧
  (answer = BadRequest ∨ answer = NotFound → after = db) ∧
  (answer = NotFound →
   ∃ u, uuid_in id = Some u ∧ List.find (resolves u id) (products db) = None) ∧
  (missing body = false →
   transactions db !! default "" (txHash body) = None →
   (uuid_in id = None → POST CHAIN_ID now id body db = (ServerError, db)) ∧
   (∀ u product,
      uuid_in id = Some u →
      List.find (resolves u id) (products db) = Some product →
      INT4_MAX < default 0 (body_blockNumber body) ∨
      varchar 66 (default "" (txHash body)) = None ∨
      varchar 42 (default "" (buyerAddress body)) = None →
      POST CHAIN_ID now id body db = (ServerError, db))) ∧
  (answer = ServerError →
   after = db ∨
   ∃ h', varchar 66 (default "" (txHash body)) = Some h' ∧
         transactions db !! h' = None ∧
         is_Some (transactions after !! h') ∧
         sellers after = sellers db ∧
         Forall2 sameProduct (products db) (products after)).
Proof.
  cbv zeta. rewrite <- missing_spec.
  split; [|split; [|split; [|split]]].
  - destruct (POST_cases now id body db)
      as [[Hm Hp] | [(Hm & _ & Hp) | [(Hm & _ & _ & Hp) | [(Hm & _ & u & _ & _ & Hp) |
          [(Hm & _ & u & p & _ & _ & _ & Hp) |
           (Hm & _ & u & p & h' & row & r & db' & _ & _ & _ & _ & Hp & Hans & _)]]]]];
      rewrite ?(Hp now), ?Hp, Hm; simpl; split; try done.
    by destruct Hans as [-> | ->].
  - destruct (POST_cases now id body db)
      as [[Hm Hp] | [(Hm & _ & Hp) | [(Hm & _ & _ & Hp) | [(Hm & _ & u & _ & _ & Hp) |
          [(Hm & _ & u & p & _ & _ & _ & Hp) |
           (Hm & _ & u & p & h' & row & r & db' & _ & _ & _ & _ & Hp & Hans & _)]]]]];
      rewrite ?(Hp now), ?Hp; simpl; try done.
    by destruct Hans as [-> | ->]; intros [|].
  - destruct (POST_cases now id body db)
      as [[Hm Hp] | [(Hm & _ & Hp) | [(Hm & _ & _ & Hp) | [(Hm & _ & u & Hu & Hfind & Hp) |
          [(Hm & _ & u & p & _ & _ & _ & Hp) |
           (Hm & _ & u & p & h' & row & r & db' & _ & _ & _ & _ & Hp & Hans & _)]]]]];
      rewrite ?(Hp now), ?Hp; simpl; try done.
    + intros _. by exists u.
    + by destruct Hans as [-> | ->].
  - intros Hm Hrow. split.
    + intros Hu. by apply POST_malformed.
    + intros u product Hu Hfind Hbad. eapply POST_refused; try done.
      apply recordPurchase_refuses.
      destruct Hbad as [Hbn | [Hh | Hb]]; [left | right; by left | right; by right].
      by apply integer_over.
  - destruct (POST_cases now id body db)
      as [[Hm Hp] | [(Hm & _ & Hp) | [(Hm & _ & _ & Hp) | [(Hm & _ & u & _ & _ & Hp) |
          [(Hm & _ & u & p & _ & _ & _ & Hp) |
           (Hm & _ & u & p & h' & row & r & db' & _ & _ & Hh & Hnew & Hp & _ & Htx & Hs
              & Hrows)]]]]];
      rewrite ?(Hp now), ?Hp; simpl; try (by left).
    intros _. right. exists h'. rewrite Htx, lookup_insert_eq. by eauto.
Qed.

(** *** First writer wins *)

Lemma insertOrIgnore_keeps (row0 row : TransactionRow D)
    (txs : gmap string (TransactionRow D)) (h : string) :
  txs !! h = Some row → insertOrIgnore row0 txs !! h = Some row.
Proof.
  intros Hrow. unfold insertOrIgnore.
  destruct (txs !! t_txHash row0) eqn:Hnew; [done|].
  rewrite lookup_insert_ne; [done | congruence].
Qed.

Lemma syncPurchase_keeps (now : N) (log : PurchasedLog) (db : DB D)
    (h : string) (row : TransactionRow D) :
  transactions db !! h = Some row →
  transactions (syncPurchase CHAIN_ID now log db) !! h = Some row.
Proof.
  intros Hrow. unfold syncPurchase. destruct (_ || _); [done|]. simpl.
  by apply insertOrIgnore_keeps.
Qed.

Lemma POST_keeps (now : N) (id : string) (body : Body) (db : DB D)
    (h : string) (row : TransactionRow D) :
  transactions db !! h = Some row →
  transactions (snd (POST CHAIN_ID now id body db)) !! h = Some row.
Proof.
  intros Hrow.
  destruct (POST_cases now id body db)
    as [[_ Hp] | [(_ & _ & Hp) | [(_ & _ & _ & Hp) | [(_ & _ & u & _ & _ & Hp) |
        [(_ & _ & u & p & _ & _ & _ & Hp) |
         (_ & _ & u & p & h' & r & a & db' & _ & _ & _ & Hnew & Hp & _ & Htx & _)]]]]];
    rewrite ?(Hp now), ?Hp; simpl; try done.
  rewrite Htx, lookup_insert_ne; [done | congruence].
Qed.

(** X18. A recorded transaction is never overwritten: a row of
    [transactions] stays as it is through any request to the purchase
    route and through any batch of purchase logs of the indexer. *)
Theorem first_writer_wins (now : N) (id : string) (body : Body)
    (logs : list (N * PurchasedLog)) (db : DB D) (h : string) (row : TransactionRow D) :
  transactions db !! h = Some row →
  transactions (snd (POST CHAIN_ID now id body db)) !! h = Some row ∧
  transactions (onLogs CHAIN_ID logs db) !! h = Some row.
Proof.
  intros Hrow. split; [by apply POST_keeps|].
  revert db Hrow. induction logs as [|[t log] logs IH]; intros db Hrow; [done|].
  simpl. apply IH. by apply syncPurchase_keeps.
Qed.

(** *** Tag counters *)

Lemma foldl_bumpTag_count (now : N) (tags : list string) (rows : gmap string TagRow)
    (t : string) :
  tagCount (foldl (bumpTag now) rows tags) t
    = tagCount rows t + N.of_nat (occurrences t tags).
Proof.
  revert rows. induction tags as [|tag tags IH]; intros rows; simpl.
  - unfold occurrences. simpl. lia.
  - rewrite IH, bumpTag_count. unfold occurrences. rewrite filter_cons.
    destruct (decide (tag = t)); simpl; lia.
Qed.

(** X20. When the purchase route records a purchase in full (the path id
    a uuid that resolves to a product, the values of the request within
    their columns, room in the counters, tags within the key of
    [tag_analytics]), it answers ok and the purchase counter of every
    tag has grown by the number of times the tag occurs among the
    product's tags: tags of the product count one more (a tag without a
    row starts at one), all other tags keep their counter. *)
Theorem POST_counts_tags (now : N) (id : string) (body : Body) (db : DB D)
    (h b : string) (bn : N) (u : list N) (product : ProductRow D) (t : string) :
  txHash body = Some h → h ≠ "" →
  body_blockNumber body = Some bn →
  buyerAddress body = Some b → b ≠ "" →
  transactions db !! h = None →
  uuid_in id = Some u →
  List.find (resolves u id) (products db) = Some product →
  fitsColumns CHAIN_ID h b bn →
  roomForSale product (products db) →
  roomForTags (p_tags product) (tagAnalytics db) →
  fst (POST CHAIN_ID now id body db) = OkTrue ∧
  tagCount (tagAnalytics (snd (POST CHAIN_ID now id body db))) t
    = tagCount (tagAnalytics db) t + N.of_nat (occurrences t (p_tags product)).
Proof.
  intros Hh Hne Hbn Hb Hbne Hrow Hu Hfind Hfits Hsale Htags.
  destruct (POST_records CHAIN_ID now id body db h b bn u product
              Hh Hne Hbn Hb Hbne Hrow Hu Hfind Hfits Hsale Htags)
    as (db' & row & Hp & _ & _ & _ & _ & _ & Htag & _).
  rewrite Hp. simpl. split; [done|]. rewrite Htag. apply foldl_bumpTag_count.
Qed.

(** *** Product rows *)

Lemma updateWhere_none (c : ProductRow D → bool) (f : ProductRow D → ProductRow D)
    (rows : list (ProductRow D)) :
  List.find c rows = None → updateWhere c f rows = rows.
Proof.
  induction rows as [|r rows IH]; simpl; [done|].
  destruct (c r); [done|]. intros Hfind. by rewrite IH.
Qed.

(** X21. Neither writer adds, removes or reorders product rows, and
    neither changes a row's id, on-chain id, seller, tags or price; a
    request to the route or the delivery of a log raises a row's sale
    counter by at most one. *)
Theorem product_rows_frame (now : N) (id : string) (body : Body)
    (log : PurchasedLog) (db : DB D) :
  Forall2 sameProduct (products db) (products (snd (POST CHAIN_ID now id body db))) ∧
  Forall2 sameProduct (products db) (products (syncPurchase CHAIN_ID now log db)).
Proof.
  assert (∀ r : ProductRow D, sameProduct r r) as Hrefl by (intros r; split; [done | lia]).
  split.
  - destruct (POST_cases now id body db)
      as [[_ Hp] | [(_ & _ & Hp) | [(_ & _ & _ & Hp) | [(_ & _ & u & _ & _ & Hp) |
          [(_ & _ & u & p & _ & _ & _ & Hp) |
           (_ & _ & u & p & h' & r & a & db' & _ & _ & _ & _ & Hp & _ & _ & _ & Hrows)]]]]];
      rewrite ?(Hp now), ?Hp; simpl;
      try (by apply Forall2_same_length_lookup_2; [done | naive_solver]).
    exact Hrows.
  - unfold syncPurchase. destruct (_ || _); simpl.
    + apply Forall2_same_length_lookup_2; [done | naive_solver].
    + apply updateWhere_Forall2; [done|]. intros x. split; [done | simpl; lia].
Qed.

(** *** The indexer at the edges *)

(** X22. The indexer skips a purchase log that lacks the product id, the
    buyer or the seller. For a product that the mirror does not hold it
    changes no product row and records the transaction, if new, without
    a product reference. *)
Theorem syncPurchase_edges (now : N) (log : PurchasedLog) (db : DB D) :
  (¬ valid_args log → syncPurchase CHAIN_ID now log db = db) ∧
  (valid_args log →
   List.find (λ r, bool_decide (p_productId r = default "" (args_productId log)))
     (products db) = None →
   products (syncPurchase CHAIN_ID now log db) = products db ∧
   (transactions db !! transactionHash log = None →
    ∃ row, transactions (syncPurchase CHAIN_ID now log db) !! transactionHash log = Some row ∧
           t_productId row = None ∧
           t_fromAddress row = default "" (args_buyer log))).
Proof.
  unfold valid_args, syncPurchase. split.
  - intros Hv. by destruct (_ || _).
  - intros -> Hfind. simpl. rewrite !updateWhere_none by done. rewrite Hfind.
    split; [done|]. intros Hnew. unfold insertOrIgnore. simpl. rewrite Hnew.
    rewrite lookup_insert_eq. eexists. split; [reflexivity|]. done.
Qed.



(** X24. The purchase route never writes the [sellers] table, and the
    indexer's purchase handler never writes [tag_analytics]. *)
Theorem writers_untouched_tables (now : N) (id : string) (body : Body)
    (logs : list (N * PurchasedLog)) (db : DB D) :
  sellers (snd (POST CHAIN_ID now id body db)) = sellers db ∧
  tagAnalytics (onLogs CHAIN_ID logs db) = tagAnalytics db.
Proof.
  split.
  - destruct (POST_cases now id body db)
      as [[_ Hp] | [(_ & _ & Hp) | [(_ & _ & _ & Hp) | [(_ & _ & u & _ & _ & Hp) |
          [(_ & _ & u & p & _ & _ & _ & Hp) |
           (_ & _ & u & p & h' & r & a & db' & _ & _ & _ & _ & Hp & _ & _ & Hs & _)]]]]];
      rewrite ?(Hp now), ?Hp; done.
  - revert db. induction logs as [|[t log] logs IH]; intros db; [done|].
    simpl. by rewrite IH, syncPurchase_tags.
Qed.

End Writers.

(** *** The sample store *)

Import MirrorSample DeliverySample.

(** An empty hash, a uuid that no row carries, the on-chain id in place
    of the uuid, a block number beyond [integer], block number 0, and a
    product with a tag of 62 characters: the last request fails after
    the insert, the update and the first tag. *)
Lemma POST_failure_modes_witness :
  POST chain 10 translatorId blankReceipt store0 = (BadRequest, store0) ∧
  POST chain 10 strangerId bobReceipt store0 = (NotFound, store0) ∧
  POST chain 10 "0xabc" bobReceipt store0 = (ServerError, store0) ∧
  POST chain 10 translatorId (receiptAt 2147483648) store0 = (ServerError, store0) ∧
  fst (POST chain 10 translatorId (receiptAt 0) store0) = OkTrue ∧
  fst (POST chain 10 translatorId bobReceipt store1) = ServerError ∧
  is_Some (transactions (snd (POST chain 10 translatorId bobReceipt store1)) !! "0xfeed") ∧
  sales (snd (POST chain 10 translatorId bobReceipt store1)) = [1] ∧
  purchasesOfTag (snd (POST chain 10 translatorId bobReceipt store1)) "nlp" = Some 1.
Proof.
  pose proof (POST_failure_modes chain 10 translatorId blankReceipt store0)
    as (Hbad & Hsame & _).
  pose proof (POST_failure_modes chain 10 strangerId bobReceipt store0) as (_ & Hsame' & _).
  pose proof (POST_failure_modes chain 10 "0xabc" bobReceipt store0)
    as (_ & _ & _ & Hraise & _).
  pose proof (POST_failure_modes chain 10 translatorId (receiptAt 2147483648) store0)
    as (_ & _ & _ & Hraise' & _).
  pose proof (POST_failure_modes chain 10 translatorId bobReceipt store1)
    as (_ & _ & _ & _ & Hlate).
  cbv zeta in *.
  split.
  { apply injective_projections; simpl.
    - apply Hbad. left. by right.
    - apply Hsame. left. apply Hbad. left. by right. }
  split.
  { apply injective_projections; simpl.
    - by vm_compute.
    - apply Hsame'. right. by vm_compute. }
  split.
  { by apply Hraise; vm_compute. }
  split.
  { destruct Hraise' as [_ Hover]; [by vm_compute | by vm_compute |].
    apply (Hover translatorUuid translator uuid_translatorId find_translator).
    left. by vm_compute. }
  split; [by vm_compute|].
  split; [by vm_compute|].
  destruct Hlate as [Hsame1 | (h' & Hh' & _ & Hrow & _)]; [by vm_compute | |].
  { apply (f_equal sales) in Hsame1. vm_compute in Hsame1. discriminate. }
  vm_compute in Hh'. injection Hh' as <-.
  split; [exact Hrow|]. split; by vm_compute.
Defined.

Lemma first_writer_wins_witness :
  let once := syncPurchase chain 10 bobLog store0 in
  transactions (snd (POST chain 20 "0xabc" bobReceipt once)) !! "0xfeed"
    = transactions once !! "0xfeed" ∧
  transactions (onLogs chain [(30, bobLog)] once) !! "0xfeed" = transactions once !! "0xfeed" ∧
  is_Some (transactions once !! "0xfeed").
Proof.
  cbv zeta.
  destruct (transactions (syncPurchase chain 10 bobLog store0) !! "0xfeed") as [row|] eqn:Hrow.
  - destruct (first_writer_wins chain 20 "0xabc" bobReceipt [(30, bobLog)]
                (syncPurchase chain 10 bobLog store0) "0xfeed" row Hrow) as [Hp Hl].
    split; [exact Hp|]. split; [exact Hl | by eexists].
  - vm_compute in Hrow. discriminate.
Defined.

Lemma POST_counts_tags_witness :
  tagCount (tagAnalytics (snd (POST chain 10 translatorId bobReceipt store0))) "nlp" = 1 ∧
  tagCount (tagAnalytics (snd (POST chain 10 translatorId bobReceipt store0))) "vision" = 0.
Proof.
  assert (transactions store0 !! "0xfeed" = None) as Hnew by (by vm_compute).
  pose proof uuid_translatorId as Hu. pose proof find_translator as Hfind.
  destruct room_translator as [Hsale Htags].
  split.
  - destruct (POST_counts_tags chain 10 translatorId bobReceipt store0 "0xfeed" "0xb0b" 42
                translatorUuid translator "nlp" eq_refl ltac:(done) eq_refl eq_refl ltac:(done)
                Hnew Hu Hfind fits_bobReceipt Hsale Htags) as [_ ->].
    by vm_compute.
  - destruct (POST_counts_tags chain 10 translatorId bobReceipt store0 "0xfeed" "0xb0b" 42
                translatorUuid translator "vision" eq_refl ltac:(done) eq_refl eq_refl ltac:(done)
                Hnew Hu Hfind fits_bobReceipt Hsale Htags) as [_ ->].
    by vm_compute.
Defined.

Lemma syncPurchase_edges_witness :
  syncPurchase chain 10 anonymousLog store0 = store0 ∧
  products (syncPurchase chain 10 strayLog store0) = products store0 ∧
  (t_productId <$> transactions (syncPurchase chain 10 strayLog store0) !! "0xbeef")
    = Some None.
Proof.
  destruct (syncPurchase_edges chain 10 anonymousLog store0) as [Hskip _].
  destruct (syncPurchase_edges chain 10 strayLog store0) as [_ Hstray].
  split; [apply Hskip; by vm_compute|].
  destruct Hstray as [Hrows Htx]; [by vm_compute | by vm_compute |].
  split; [exact Hrows|].
  destruct Htx as (row & Hrow & Hnone & _); [by vm_compute|].
  change (transactionHash strayLog) with "0xbeef" in Hrow.
  by rewrite Hrow, <- Hnone.
Defined.


End WritersProps.

(** ** The delivery route against the ledger *)

Module DeliveryProps.
Import Mirror Delivery.

Section Route.

Context {D : Type}.
Variable nameOf : ProductRow D → string.
Variable deliveryMethodOf : ProductRow D → option string.
Variable toISOString : N → string.

Abbreviation deliverWith chainRead :=
  (deliver nameOf deliveryMethodOf toISOString chainRead).

(** X25. The delivery route answers 400 without a buyer address, 500 for
    a path id that is not a uuid, 404 for a uuid that resolves to no
    product of the mirror, 500 when the contract read throws, 402 when
    the contract denies the purchase; only when the contract confirms
    that the buyer purchased the product's on-chain id does it deliver,
    and the payload is for that id. *)
Theorem deliver_verdicts (chainRead : string → string → option bool)
    (nowMs : N) (id : string) (buyerAddress : option string) (db : DB D) :
  ((buyerAddress = None ∨ buyerAddress = Some "") →
   deliverWith chainRead nowMs id buyerAddress db = BuyerRequired) ∧
  (∀ b, buyerAddress = Some b → b ≠ "" →
     match uuid_in id with
     | None => deliverWith chainRead nowMs id buyerAddress db = InternalServerError
     | Some u =>
         match List.find (resolves u id) (products db) with
         | None => deliverWith chainRead nowMs id buyerAddress db = ProductUnknown
         | Some product =>
             match chainRead b (p_productId product) with
             | None => deliverWith chainRead nowMs id buyerAddress db = InternalServerError
             | Some false =>
                 deliverWith chainRead nowMs id buyerAddress db
                   = PaymentRequired b (p_productId product)
             | Some true =>
                 ∃ payload,
                   deliverWith chainRead nowMs id buyerAddress db = Delivered payload ∧
                   d_productId payload = p_productId product ∧
                   d_name payload = nameOf product ∧
                   (d_apiKey payload ≠ None ↔ deliveryMethodOf product = Some "api_key")
             end
         end
     end) ∧
  (∀ payload, deliverWith chainRead nowMs id buyerAddress db = Delivered payload →
     ∃ b u product, buyerAddress = Some b ∧ uuid_in id = Some u ∧
                    List.find (resolves u id) (products db) = Some product ∧
                    chainRead b (p_productId product) = Some true ∧
                    d_productId payload = p_productId product).
Proof.
  unfold deliver. split; [|split].
  - intros [-> | ->]; done.
  - intros b -> Hb. simpl. rewrite bool_decide_eq_false_2 by done.
    destruct (uuid_in id) as [u|]; [|done].
    destruct (List.find _ (products db)) as [product|]; [|done].
    destruct (chainRead b (p_productId product)) as [[]|]; try done.
    eexists. split; [reflexivity|]. simpl. split; [done|]. split; [done|].
    case_bool_decide; split; done.
  - intros payload. destruct buyerAddress as [b|]; simpl; [|done].
    case_bool_decide; [done|].
    destruct (uuid_in id) as [u|] eqn:Hu; [|done].
    destruct (List.find _ (products db)) as [product|] eqn:Hfind; [|done].
    destruct (chainRead b (p_productId product)) as [[]|] eqn:Hc; try done.
    intros [= <-]. by exists b, u, product.
Qed.

Section Ledger.

Context {T : Type} `{Ouro.IERC20 T}.
Variable keccak256 : N → string → N → N → N.
Variable decodeAddress decodeBytes32 : string → option N.

(** X26. Against the ledger reached by a history, the delivery route
    delivers exactly to the buyers of the history: it delivers if and
    only if the buyer address is given, the path id is a uuid that
    resolves to a product of the mirror, both hex strings decode, and a
    purchase of that product id by that account went through. *)
Theorem delivery_follows_purchases (tr : list (Ouro.Env * Ouro.Call)) (s : Ouro.State)
    (nowMs : N) (id : string) (buyerAddress : option string) (db : DB D) :
  Ouro.run keccak256 tr s →
  (∃ payload,
     deliverWith (readLedger decodeAddress decodeBytes32 s) nowMs id buyerAddress db
       = Delivered payload) ↔
  (∃ b u product a pid,
     buyerAddress = Some b ∧ b ≠ "" ∧
     uuid_in id = Some u ∧
     List.find (resolves u id) (products db) = Some product ∧
     decodeAddress b = Some a ∧ decodeBytes32 (p_productId product) = Some pid ∧
     a ∈ Books.buyersOf pid tr).
Proof.
  intros Hrun. unfold deliver, readLedger. split.
  - intros [payload Hd]. destruct buyerAddress as [b|]; simpl in Hd; [|done].
    case_bool_decide as Hb; [done|].
    destruct (uuid_in id) as [u|] eqn:Hu; [|done].
    destruct (List.find _ (products db)) as [product|] eqn:Hfind; [|done].
    destruct (decodeAddress b) as [a|] eqn:Ha; simpl in Hd; [|done].
    destruct (decodeBytes32 (p_productId product)) as [pid|] eqn:Hp; simpl in Hd; [|done].
    destruct (Ouro.hasUserPurchased s a pid) eqn:Hbought; [|done].
    exists b, u, product, a, pid. repeat split; try done.
    by apply (BooksProps.purchased_exact keccak256 tr s Hrun).
  - intros (b & u & product & a & pid & -> & Hb & Hu & Hfind & Ha & Hp & Hin). simpl.
    rewrite bool_decide_eq_false_2 by done.
    rewrite Hu, Hfind, Ha. simpl. rewrite Hp. simpl.
    apply (BooksProps.purchased_exact keccak256 tr s Hrun) in Hin. rewrite Hin.
    by eexists.
Qed.

(** X27. A purchase opens the delivery: once [purchase] has succeeded
    for an account and a product id, the route, asked under the uuid of
    the product's row in the mirror, delivers that product to that
    account, as read from the ledger the purchase left. *)
Theorem purchase_opens_delivery (tk : T) (e : Ouro.Env) (pid : N) (s : Ouro.State)
    (o : Ouro.Outcome T) (nowMs : N) (id b : string) (u : list N)
    (product : ProductRow D) (db : DB D) :
  Ouro.purchase tk e pid s = Ouro.Ok o →
  b ≠ "" →
  uuid_in id = Some u →
  List.find (resolves u id) (products db) = Some product →
  decodeAddress b = Some (Ouro.sender e) →
  decodeBytes32 (p_productId product) = Some pid →
  ∃ payload,
    deliverWith (readLedger decodeAddress decodeBytes32 (Ouro.st o)) nowMs id (Some b) db
      = Delivered payload ∧
    d_productId payload = p_productId product.
Proof.
  intros Hp Hb Hu Hfind Ha Hpid.
  apply OuroProps.purchase_Ok in Hp as (_ & _ & _ & _ & _ & _ & Hst & _).
  unfold deliver, readLedger. simpl.
  rewrite bool_decide_eq_false_2 by done.
  rewrite Hu, Hfind, Ha. simpl. rewrite Hpid. simpl.
  assert (Ouro.hasUserPurchased (Ouro.st o) (Ouro.sender e) pid = true) as ->.
  { rewrite Hst. unfold Ouro.hasUserPurchased. simpl. by rewrite lookup_insert_eq. }
  eexists. split; reflexivity.
Qed.

End Ledger.

End Route.

(** *** The sample setting *)

Import MirrorSample DeliverySample.

Lemma find_listedTranslator :
  List.find (resolves translatorUuid translatorId) (products shelf) = Some listedTranslator.
Proof. by vm_compute. Defined.

(** No buyer, a bystander, an address that is no address, the on-chain
    id in place of the uuid, and a uuid that no row carries. *)
Lemma deliver_verdicts_witness :
  deliverFrom (Ouro.st Sample.bought) None = BuyerRequired ∧
  deliverFrom (Ouro.st Sample.bought) (Some carolAddress)
    = PaymentRequired carolAddress translatorProductId ∧
  deliverFrom (Ouro.st Sample.bought) (Some "0xzzz") = InternalServerError ∧
  deliverTo translatorProductId (Ouro.st Sample.bought) (Some bobAddress)
    = InternalServerError ∧
  deliverTo strangerId (Ouro.st Sample.bought) (Some bobAddress) = ProductUnknown.
Proof.
  unfold deliverFrom, deliverTo.
  split.
  { apply (deliver_verdicts sampleName sampleMethod sampleClock). by left. }
  split.
  { destruct (deliver_verdicts sampleName sampleMethod sampleClock
                (readLedger (decodeHex 20) (decodeHex 32) (Ouro.st Sample.bought))
                1700000000000 translatorId (Some carolAddress) shelf) as (_ & Hb & _).
    specialize (Hb carolAddress eq_refl ltac:(done)).
    rewrite MirrorProps.uuid_translatorId, find_listedTranslator in Hb. exact Hb. }
  split.
  { destruct (deliver_verdicts sampleName sampleMethod sampleClock
                (readLedger (decodeHex 20) (decodeHex 32) (Ouro.st Sample.bought))
                1700000000000 translatorId (Some "0xzzz") shelf) as (_ & Hb & _).
    specialize (Hb "0xzzz" eq_refl ltac:(done)).
    rewrite MirrorProps.uuid_translatorId, find_listedTranslator in Hb. exact Hb. }
  split.
  { destruct (deliver_verdicts sampleName sampleMethod sampleClock
                (readLedger (decodeHex 20) (decodeHex 32) (Ouro.st Sample.bought))
                1700000000000 translatorProductId (Some bobAddress) shelf) as (_ & Hb & _).
    exact (Hb bobAddress eq_refl ltac:(done)). }
  destruct (deliver_verdicts sampleName sampleMethod sampleClock
              (readLedger (decodeHex 20) (decodeHex 32) (Ouro.st Sample.bought))
              1700000000000 strangerId (Some bobAddress) shelf) as (_ & Hb & _).
  exact (Hb bobAddress eq_refl ltac:(done)).
Defined.

Lemma delivery_follows_purchases_witness :
  ∃ payload, deliverFrom (Ouro.st Sample.bought) (Some bobAddress) = Delivered payload.
Proof.
  apply (delivery_follows_purchases sampleName sampleMethod sampleClock Sample.hash
           (decodeHex 20) (decodeHex 32) _ (Ouro.st Sample.bought) 1700000000000
           translatorId (Some bobAddress) shelf OuroProps.run_bought).
  exists bobAddress, translatorUuid, listedTranslator, Sample.bob, Sample.pid1.
  split; [done|]. split; [done|].
  split; [exact MirrorProps.uuid_translatorId|].
  split; [exact find_listedTranslator|].
  split; [by vm_compute|]. split; [by vm_compute|]. vm_compute. apply list_elem_of_here.
Defined.

Lemma purchase_opens_delivery_witness :
  ∃ payload, deliverFrom (Ouro.st Sample.bought) (Some bobAddress) = Delivered payload ∧
             d_productId payload = translatorProductId.
Proof.
  assert (Ouro.purchase (Ouro.tok Sample.listed) (Sample.at_ Sample.bob 1700000100)
            Sample.pid1 (Ouro.st Sample.listed) = Ouro.Ok Sample.bought) as Hp
    by (by vm_compute).
  exact (purchase_opens_delivery sampleName sampleMethod sampleClock
           (decodeHex 20) (decodeHex 32)
           _ _ _ _ _ 1700000000000 translatorId bobAddress translatorUuid listedTranslator
           shelf Hp ltac:(done) MirrorProps.uuid_translatorId find_listedTranslator
           ltac:(by vm_compute) ltac:(by vm_compute)).
Defined.

End DeliveryProps.
